(** * SynchronizationActor: the broadcast barrier of ray.train.v2

    A shallow embedding of
    [python/ray/train/v2/_internal/execution/checkpoint/sync_actor.py].

    The actor's fields live in a record, its methods are written in a small
    state-and-exception monad, and the coroutine [broadcast_from_rank_zero] is
    cut at the wait on the condition variable into the stretches that run
    without interleaving.  A scheduler ([step]) interleaves the stretches of
    the calls in flight, with the timers of the two nested [asyncio.wait_for]
    firing at any moment. *)

From Stdlib Require Import ZArith.
From Stdlib Require Import Floats.PrimFloat Floats.FloatOps Floats.SpecFloat.
From Stdlib Require Import Floats.FloatAxioms.
From stdpp Require Import base tactics option list gmap strings pretty.

Local Open Scope Z_scope.

(** ** Python values *)

(** [bool(x)] for a float: every float is truthy except [0.0] and [-0.0]. *)
Definition float_truthy (x : float) : bool := negb (PrimFloat.eqb x 0%float).

(** Resolution of a Python list index: [0 <= i < len] counts from the front,
    [-len <= i < 0] from the back, anything else is out of range. *)
Definition py_index {A} (l : list A) (i : Z) : option nat :=
  let n := Z.of_nat (length l) in
  if bool_decide (0 ≤ i < n) then Some (Z.to_nat i)
  else if bool_decide (- n ≤ i < 0) then Some (Z.to_nat (i + n))
  else None.

(** [l[i] = x]; [None] stands for the [IndexError]. *)
Definition list_setitem {A} (l : list A) (i : Z) (x : A) : option (list A) :=
  k ← py_index l i; Some (<[k := x]> l).

(** [[x] * n]: empty when [n <= 0]. *)
Definition list_repeat {A} (x : A) (n : Z) : list A := replicate (Z.to_nat n) x.

(** How many elements of a list satisfy [f]. *)
Fixpoint count {A} (f : A → bool) (l : list A) : Z :=
  match l with
  | [] => 0
  | x :: l => (if f x then 1 else 0) + count f l
  end.

(** [timeout <= 0]: the test by which [asyncio.wait_for] cancels what it is
    given before its first statement runs, and raises [TimeoutError]. *)
Definition expired (timeout : float) : bool := PrimFloat.leb timeout 0.
Arguments expired : simpl never.

(** [0 < timeout]: a timer set for it fires later or never, not at once. *)
Definition positive (timeout : float) : bool := PrimFloat.ltb 0 timeout.
Arguments positive : simpl never.

(** ** Exceptions *)

(** The text of the [ValueError] raised on a world size mismatch.  The
    backslash at the end of the first source line continues the literal, so
    the indentation of the second line is part of the message. *)
Definition world_size_mismatch_message (world_size expected : Z) : string :=
  "Expects all callers to provide the same world size.                 Got "
  +:+ pretty world_size +:+ " and expected " +:+ pretty expected +:+ ".".

Inductive exn :=
| ValueError (msg : string)
| IndexError
| RuntimeError (msg : string)
| BroadcastCollectiveTimeoutError
    (time_elapsed : gmap Z (option float)) (timeout_s : float).

Inductive result (A : Type) :=
| Ok (a : A)
| Raise (e : exn).
Arguments Ok {A} a.
Arguments Raise {A} e.

(** ** The actor and its methods *)

Section Actor.
Context {T : Type}.

(** The fields set by [__init__].  [data] may be any object, [None] included,
    so a payload is an [option T]. *)
Record SynchronizationActor := mkActor {
  _counter : Z;
  _world_size : Z;
  _reduced_data : option T;
  _sync_start_times : list (option float);
  _timeout_s : float;
  _warn_interval_s : float;
}.

Definition __init__ (timeout_s warn_interval_s : float) : SynchronizationActor :=
  {| _counter := 0; _world_size := 0; _reduced_data := None;
     _sync_start_times := []; _timeout_s := timeout_s;
     _warn_interval_s := warn_interval_s |}.

Definition set_counter (v : Z) (s : SynchronizationActor) :=
  {| _counter := v; _world_size := _world_size s;
     _reduced_data := _reduced_data s;
     _sync_start_times := _sync_start_times s; _timeout_s := _timeout_s s;
     _warn_interval_s := _warn_interval_s s |}.
Definition set_world_size (v : Z) (s : SynchronizationActor) :=
  {| _counter := _counter s; _world_size := v;
     _reduced_data := _reduced_data s;
     _sync_start_times := _sync_start_times s; _timeout_s := _timeout_s s;
     _warn_interval_s := _warn_interval_s s |}.
Definition set_reduced_data (v : option T) (s : SynchronizationActor) :=
  {| _counter := _counter s; _world_size := _world_size s;
     _reduced_data := v;
     _sync_start_times := _sync_start_times s; _timeout_s := _timeout_s s;
     _warn_interval_s := _warn_interval_s s |}.
Definition set_sync_start_times (v : list (option float))
    (s : SynchronizationActor) :=
  {| _counter := _counter s; _world_size := _world_size s;
     _reduced_data := _reduced_data s;
     _sync_start_times := v; _timeout_s := _timeout_s s;
     _warn_interval_s := _warn_interval_s s |}.

(** A method body: it reads and writes [self] and returns or raises. *)
Definition M (A : Type) : Type :=
  SynchronizationActor → result A * SynchronizationActor.

Definition ret {A} (x : A) : M A := λ s, (Ok x, s).
Definition raise {A} (e : exn) : M A := λ s, (Raise e, s).
Definition bind {A B} (m : M A) (k : A → M B) : M B :=
  λ s, match m s with
       | (Ok x, s') => k x s'
       | (Raise e, s') => (Raise e, s')
       end.
Definition gets {A} (f : SynchronizationActor → A) : M A := λ s, (Ok (f s), s).
Definition modify (f : SynchronizationActor → SynchronizationActor) : M unit :=
  λ s, (Ok tt, f s).
(** [try: body finally: fin] *)
Definition try_finally {A} (body : M A) (fin : M unit) : M A :=
  λ s, let '(r, s') := body s in
       match fin s' with
       | (Ok _, s'') => (r, s'')
       | (Raise e, s'') => (Raise e, s'')
       end.

#[local] Instance M_ret : MRet M := @ret.
#[local] Instance M_bind : MBind M := λ A B k m, bind m k.

Definition get_counter : M Z := gets _counter.
Definition get_world_size : M Z := gets _world_size.
Definition get_reduced_data : M (option T) := gets _reduced_data.

Definition _clear_states : M unit :=
  c ← gets _counter;
  modify (set_counter (c - 1));;
  c ← gets _counter;
  if bool_decide (c = 0) then
    modify (set_reduced_data None);;
    modify (set_world_size 0)
  else ret tt.

Definition _setup_or_validate_collective_op (world_size : Z) : M unit :=
  w ← gets _world_size;
  if bool_decide (w = 0) then
    modify (set_world_size world_size);;
    modify (set_sync_start_times (list_repeat None world_size))
  else if bool_decide (world_size ≠ w) then
    raise (ValueError (world_size_mismatch_message world_size w))
  else ret tt.

(** [_broadcast_collective_context_manager], the statements of its [try]
    block that precede the [yield]. *)
Definition _broadcast_collective_enter (world_rank world_size : Z)
    (data : option T) : M unit :=
  _setup_or_validate_collective_op world_size;;
  (if bool_decide (world_rank = 0) then modify (set_reduced_data data)
   else ret tt);;
  c ← gets _counter;
  w ← gets _world_size;
  if bool_decide (c < w) then modify (set_counter (c + 1)) else ret tt.

(** The comprehension of [_get_time_elapsed_dict]; [current_time] is the
    reading of the event loop's clock. *)
Definition time_elapsed (current_time : float) (start_time : option float)
    : option float :=
  match start_time with
  | Some t => if float_truthy t then Some (PrimFloat.sub current_time t) else None
  | None => None
  end.

Definition _get_time_elapsed_dict (current_time : float)
    : M (gmap Z (option float)) :=
  times ← gets _sync_start_times;
  ret (map_seqZ 0 (time_elapsed current_time <$> times)).

Definition _get_broadcast_collective_timeout_error (current_time : float)
    : M exn :=
  d ← _get_time_elapsed_dict current_time;
  t ← gets _timeout_s;
  ret (BroadcastCollectiveTimeoutError d t).

(** *** The methods in closed form *)

(** [_clear_states] as one assignment. *)
Definition cleared (a : SynchronizationActor) : SynchronizationActor :=
  if bool_decide (_counter a - 1 = 0)
  then mkActor 0 0 None (_sync_start_times a) (_timeout_s a)
         (_warn_interval_s a)
  else set_counter (_counter a - 1) a.

(** The condition of the [ValueError]. *)
Definition mismatch (world_size : Z) (a : SynchronizationActor) : Prop :=
  _world_size a ≠ 0 ∧ world_size ≠ _world_size a.

(** The state after the [try] block of the context manager when the world
    size is accepted. *)
Definition entered (world_rank world_size : Z) (data : option T)
    (a : SynchronizationActor) : SynchronizationActor :=
  let a1 := if bool_decide (_world_size a = 0)
            then set_sync_start_times (list_repeat None world_size)
                   (set_world_size world_size a)
            else a in
  let a2 := if bool_decide (world_rank = 0) then set_reduced_data data a1
            else a1 in
  if bool_decide (_counter a2 < _world_size a2)
  then set_counter (_counter a2 + 1) a2 else a2.

(** The list of arrival times is as long as the round is wide. *)
Definition times_ok (a : SynchronizationActor) : Prop :=
  _world_size a ≠ 0 →
  length (_sync_start_times a) = Z.to_nat (_world_size a).

(** *** [broadcast_from_rank_zero], stretch by stretch

    The coroutine holds the condition's lock from [async with] up to
    [condition.wait()], and again from its wake-up to the end: each stretch
    runs without interleaving.  [current_time] is what
    [asyncio.get_event_loop().time()] returns in that stretch. *)

Inductive progress :=
| Returned (v : option T)
| Suspended                     (* in [condition.wait()], the lock released *)
| SuspendedLocked.              (* in the loop of the warnings, the lock kept *)

(** [_wait_with_logging] up to its first suspension.  The first
    [asyncio.wait_for(condition.wait(), timeout=self._warn_interval_s)]
    starts [condition.wait()], which releases the lock, unless
    [warn_interval_s <= 0]: then [condition.wait()] is cancelled before it
    starts, now and at every turn of the loop, and the lock is never
    released. *)
Definition _wait_with_logging (world_rank : Z) (current_time : float)
    : M progress :=
  times ← gets _sync_start_times;
  match list_setitem times world_rank (Some current_time) with
  | Some times' =>
      modify (set_sync_start_times times');;
      i ← gets _warn_interval_s;
      ret (if expired i then SuspendedLocked else Suspended)
  | None => raise IndexError
  end.

(** [asyncio.wait_for(self._wait_with_logging(...), timeout=self._timeout_s)]
    under its [try]: with [timeout_s <= 0] the coroutine is cancelled before
    its first statement, so that no start time is recorded and no index is
    looked up, and the [TimeoutError] is turned into the structured error at
    once. *)
Definition wait_for_release (world_rank : Z) (current_time : float)
    : M progress :=
  t ← gets _timeout_s;
  if expired t then
    e ← _get_broadcast_collective_timeout_error current_time; raise e
  else _wait_with_logging world_rank current_time.

(** The block under the context manager, up to the suspension.  The call to
    [notify_all] is the scheduler's part ([step]): it happens exactly when
    this returns [Returned]. *)
Definition broadcast_block (world_rank : Z) (current_time : float)
    : M progress :=
  c ← gets _counter;
  w ← gets _world_size;
  if bool_decide (c = w) then d ← gets _reduced_data; ret (Returned d)
  else wait_for_release world_rank current_time.

(** The [finally] of the context manager runs when the [with] block is left,
    by a return or by an exception, and not when the coroutine suspends in
    it.  An exception of the [try] block before the [yield] reaches the
    [finally] too. *)
Definition leave_unless_suspended (r : result progress) : M progress :=
  match r with
  | Ok Suspended => ret Suspended
  | Ok SuspendedLocked => ret SuspendedLocked
  | _ => try_finally (λ s, (r, s)) _clear_states
  end.

(** From the call to the return, to the exception, or to the suspension. *)
Definition broadcast_from_rank_zero (world_rank world_size : Z)
    (data : option T) (current_time : float) : M progress :=
  λ s, let '(r, s') :=
         (_broadcast_collective_enter world_rank world_size data;;
          broadcast_block world_rank current_time) s in
       leave_unless_suspended r s'.

(** After the wake-up by [notify_all]: [return self._reduced_data]. *)
Definition broadcast_from_rank_zero_notified : M (option T) :=
  try_finally (gets _reduced_data) _clear_states.

(** After [timeout_s] has passed in the wait. *)
Definition broadcast_from_rank_zero_timed_out (current_time : float)
    : M (option T) :=
  try_finally
    (e ← _get_broadcast_collective_timeout_error current_time; raise e)
    _clear_states.

(** The same when the cancelled [condition.wait()] has not taken the lock back
    by the time the [async with] block is left: the error is built, the
    [finally] runs, and the release of the lock raises in their place. *)
Definition broadcast_from_rank_zero_lock_lost (current_time : float)
    : M (option T) :=
  λ s, (Raise (RuntimeError "Lock is not acquired."),
        (broadcast_from_rank_zero_timed_out current_time s).2).

(** What the periodic warning of [_wait_with_logging] is formatted from. *)
Record warning := mkWarning {
  time_elapsed_dict : gmap Z float;
  warning_world_size : Z;
  warning_warn_interval_s : float;
}.

Definition _wait_with_logging_warn (current_time : float) : M warning :=
  d ← _get_time_elapsed_dict current_time;
  w ← gets _world_size;
  i ← gets _warn_interval_s;
  ret (mkWarning (omap id d) w i).

(** ** The calls in flight *)

Inductive phase :=
| Pending                 (* not yet scheduled *)
| Waiting                 (* suspended in [condition.wait()] *)
| Notified                (* woken, the lock not yet taken back *)
| Spinning                (* in the loop of the warnings, holding the lock *)
| Finished (r : result (option T)).

Record call := mkCall {
  call_rank : Z;
  call_world_size : Z;
  call_data : option T;
  call_phase : phase;
}.

Definition set_phase (p : phase) (c : call) : call :=
  mkCall (call_rank c) (call_world_size c) (call_data c) p.

Record system := mkSystem {
  actor : SynchronizationActor;
  calls : list call;
  warnings : list warning;
}.

(** [self._condition.notify_all()]: it reaches the calls that are in
    [condition.wait()], and no other. *)
Definition notify_all (cs : list call) : list call :=
  (λ c, match call_phase c with Waiting => set_phase Notified c | _ => c end)
    <$> cs.

(** What the event loop may run next.

    [Arrive]: call [i] starts and runs to its return, its exception or its
    wait.

    [Wake]: a notified call takes the lock back and returns.

    [Warn]: [warn_interval_s] has passed for a call in the wait, which logs
    and waits again.  When the call had been notified and had not yet taken
    the lock back, the cancellation of [condition.wait()] discards the
    notification: the call is back in the wait and nothing will wake it.

    [Timeout]: [timeout_s] has passed for a call in the wait, notified or
    not, which takes the lock back and raises the structured error.

    [TimeoutRace]: the same when the [async with] block is left before the
    cancelled [condition.wait()] has taken the lock back, as happens to the
    later of two calls whose timers are handled in the same pass of the loop:
    the call ends with [RuntimeError].

    Clock readings come with the events; the lengths of the waits are not
    modelled, and neither is the lock: [step] says what a stretch does when
    the loop runs it, and lets the loop run it at any moment.  The code is
    more restricted: no stretch of another call runs while a call spins,
    and after a [TimeoutRace] the cancelled wait takes the lock and nothing
    releases it.  What holds in every run of [step] therefore holds in the
    code; that a run exists is stated only of runs in which no call spins
    and no call has timed out. *)
Inductive event :=
| Arrive (i : nat) (current_time : float)
| Wake (i : nat)
| Warn (i : nat) (current_time : float)
| Timeout (i : nat) (current_time : float)
| TimeoutRace (i : nat) (current_time : float).

Definition finish (i : nat) (c : call) (r : result (option T))
    (a : SynchronizationActor) (cs : list call) (sys : system) : system :=
  mkSystem a (<[i := set_phase (Finished r) c]> cs) (warnings sys).

(** One stretch of one call; [None] when call [i] is not at that point. *)
Definition step (sys : system) (ev : event) : option system :=
  match ev with
  | Arrive i now =>
      c ← calls sys !! i;
      match call_phase c with
      | Pending =>
          match broadcast_from_rank_zero (call_rank c) (call_world_size c)
                  (call_data c) now (actor sys) with
          | (Ok Suspended, a) =>
              Some (mkSystem a (<[i := set_phase Waiting c]> (calls sys))
                      (warnings sys))
          | (Ok SuspendedLocked, a) =>
              Some (mkSystem a (<[i := set_phase Spinning c]> (calls sys))
                      (warnings sys))
          | (Ok (Returned v), a) =>
              Some (finish i c (Ok v) a (notify_all (calls sys)) sys)
          | (Raise e, a) => Some (finish i c (Raise e) a (calls sys) sys)
          end
      | _ => None
      end
  | Wake i =>
      c ← calls sys !! i;
      match call_phase c with
      | Notified =>
          let '(r, a) := broadcast_from_rank_zero_notified (actor sys) in
          Some (finish i c r a (calls sys) sys)
      | _ => None
      end
  | Warn i now =>
      c ← calls sys !! i;
      match call_phase c with
      | Waiting | Spinning =>
          match _wait_with_logging_warn now (actor sys) with
          | (Ok w, a) => Some (mkSystem a (calls sys) (warnings sys ++ [w]))
          | (Raise _, _) => None
          end
      | Notified =>
          match _wait_with_logging_warn now (actor sys) with
          | (Ok w, a) =>
              Some (mkSystem a (<[i := set_phase Waiting c]> (calls sys))
                      (warnings sys ++ [w]))
          | (Raise _, _) => None
          end
      | _ => None
      end
  | Timeout i now =>
      c ← calls sys !! i;
      match call_phase c with
      | Waiting | Notified | Spinning =>
          let '(r, a) := broadcast_from_rank_zero_timed_out now (actor sys) in
          Some (finish i c r a (calls sys) sys)
      | _ => None
      end
  | TimeoutRace i now =>
      c ← calls sys !! i;
      match call_phase c with
      | Waiting | Notified =>
          let '(r, a) := broadcast_from_rank_zero_lock_lost now (actor sys) in
          Some (finish i c r a (calls sys) sys)
      | _ => None
      end
  end.

Fixpoint run (sys : system) (evs : list event) : option system :=
  match evs with
  | [] => Some sys
  | ev :: evs => sys' ← step sys ev; run sys' evs
  end.

(** The events of a run in which no timer fires. *)
Definition no_timer (ev : event) : bool :=
  match ev with Arrive _ _ | Wake _ => true | _ => false end.

Definition is_arrival (ev : event) : bool :=
  match ev with Arrive _ _ => true | _ => false end.

Definition is_finished (c : call) : bool :=
  match call_phase c with Finished _ => true | _ => false end.

(** A call that has ended on its timeout, with the structured error or with
    the [RuntimeError] of the lock. *)
Definition timed_out (c : call) : bool :=
  match call_phase c with
  | Finished (Raise (BroadcastCollectiveTimeoutError _ _))
  | Finished (Raise (RuntimeError _)) => true
  | _ => false
  end.

(** A fresh actor and calls that have not started. *)
Definition start (timeout_s warn_interval_s : float)
    (args : list (Z * Z * option T)) : system :=
  mkSystem (__init__ timeout_s warn_interval_s)
    ((λ '(r, w, d), mkCall r w d Pending) <$> args) [].

(** The arguments of a call, which no step changes. *)
Definition args_of (c : call) : Z * Z * option T :=
  (call_rank c, call_world_size c, call_data c).

(** A call that is inside the [with] block: it has added itself to the
    counter and not yet left. *)
Definition inside (c : call) : bool :=
  match call_phase c with
  | Waiting | Notified | Spinning => true
  | _ => false
  end.

Definition is_pending (c : call) : bool :=
  match call_phase c with Pending => true | _ => false end.

Definition is_spinning (c : call) : bool :=
  match call_phase c with Spinning => true | _ => false end.

(** ** Invariants of the runs *)

(** Two for each call still to arrive and one for each call inside. *)
Definition measure (sys : system) : Z :=
  2 * count is_pending (calls sys) + count inside (calls sys).

(** The configuration of the actor, which no step changes; a call spins
    only under a warning interval that is not positive, and a call is inside
    only under a timeout that is. *)
Definition configured (timeout_s warn_interval_s : float) (sys : system)
    : Prop :=
  _timeout_s (actor sys) = timeout_s ∧
  _warn_interval_s (actor sys) = warn_interval_s ∧
  (expired warn_interval_s = false →
   ∀ (j : nat) (c : call), calls sys !! j = Some c → call_phase c ≠ Spinning) ∧
  (expired timeout_s = true →
   _counter (actor sys) ≤ 0 ∧
   ∀ (j : nat) (c : call), calls sys !! j = Some c → inside c = false).

(** The payload is already that of the round, or it is still [None] and no
    caller of rank 0 has arrived. *)
Definition payload_ok (V : option T) (sys : system) : Prop :=
  _reduced_data (actor sys) = V ∨
  _reduced_data (actor sys) = None ∧
  ∀ (j : nat) (c : call), calls sys !! j = Some c →
    inside c = true → call_rank c ≠ 0.

(** Before the last arrival: the callers that have arrived are in the wait,
    and the counter counts them. *)
Definition gathering (n : nat) (V : option T) (sys : system) : Prop :=
  (∀ (j : nat) (c : call), calls sys !! j = Some c →
     call_phase c = Pending ∨ call_phase c = Waiting ∨
     call_phase c = Spinning) ∧
  _counter (actor sys) = count inside (calls sys) ∧
  _counter (actor sys) < Z.of_nat n ∧
  (_counter (actor sys) = 0 → _world_size (actor sys) = 0) ∧
  (_counter (actor sys) ≠ 0 → _world_size (actor sys) = Z.of_nat n) ∧
  times_ok (actor sys) ∧
  payload_ok V sys.

(** After the last arrival: every call is still inside or has returned [V],
    and the counter counts those still to leave. *)
Definition released (n : nat) (V : option T) (sys : system) : Prop :=
  (∀ (j : nat) (c : call), calls sys !! j = Some c →
     inside c = true ∨ call_phase c = Finished (Ok V)) ∧
  _counter (actor sys) = count inside (calls sys) ∧
  (_counter (actor sys) = 0 → _world_size (actor sys) = 0) ∧
  (_counter (actor sys) ≠ 0 →
     _world_size (actor sys) = Z.of_nat n ∧ _reduced_data (actor sys) = V).

(** The invariant of a round of [n] calls with the arguments [args], for as
    long as no call has ended on its timeout. *)
Definition round_inv (n : nat) (V : option T) (args : list (Z * Z * option T))
    (sys : system) : Prop :=
  args_of <$> calls sys = args ∧
  (Exists (λ c, timed_out c = true) (calls sys) ∨
   gathering n V sys ∨ released n V sys).

(** A state from which the round can still complete without a timer: a call
    is yet to arrive, or no call is back in the wait after its release. *)
Definition on_course (sys : system) : Prop :=
  Exists (λ c, is_pending c = true) (calls sys) ∨
  Forall (λ c, call_phase c ≠ Waiting) (calls sys).

(** Every call declares the world size [N]. *)
Definition agreeing (N : Z) (sys : system) : Prop :=
  ∀ (j : nat) (c : call), calls sys !! j = Some c → call_world_size c = N.

(** The counter counts the calls inside and is zero with the world size. *)
Definition counter_inv (N : Z) (sys : system) : Prop :=
  _counter (actor sys) = count inside (calls sys) ∧
  (_counter (actor sys) = 0 ∧ _world_size (actor sys) = 0 ∨
   0 < _counter (actor sys) < N ∧ _world_size (actor sys) = N).

(** No call has rank 0 and no call has returned anything but [None]. *)
Definition returns_none (c : call) : Prop :=
  call_rank c ≠ 0 ∧ ∀ v, call_phase c = Finished (Ok v) → v = None.

Definition no_payload (sys : system) : Prop :=
  _reduced_data (actor sys) = None ∧
  ∀ (j : nat) (c : call), calls sys !! j = Some c → returns_none c.

End Actor.

Arguments SynchronizationActor : clear implicits.
Arguments M : clear implicits.
Arguments progress : clear implicits.
Arguments phase : clear implicits.
Arguments call : clear implicits.
Arguments system : clear implicits.

(** ** Scenarios *)

(** The scenario of the checkpoint: a world of three, ranks 1 and 2 call
    first and wait, a warning is logged, then rank 0 calls with its payload. *)
Definition checkpoint_scenario : system string :=
  start 5 1 [(0, 3, Some "ckpt-42"); (1, 3, None); (2, 3, None)].

Definition checkpoint_events : list event :=
  [Arrive 1 10; Arrive 2 10; Warn 1 11; Arrive 0 12; Wake 2; Wake 1].

(** The scenario of the world size mismatch: rank 0 declares a world of ten
    and waits, rank 1 then declares a world of eleven. *)
Definition mismatch_scenario : system string :=
  start 1800 30 [(0, 10, Some "hello"); (1, 11, Some "world")].

(** The scenario of the round that is opened twice: in a world of two rank 0
    waits, a call that declares a world of three fails, rank 1 arrives, and
    rank 0 times out. *)
Definition reopened_scenario : system string :=
  start 1800 30 [(0, 2, Some "hello"); (5, 3, None); (1, 2, Some "world")].

Definition reopened_events : list event :=
  [Arrive 0 5; Arrive 1 6; Arrive 2 7; Timeout 0 1805].

(** The scenario of the timeout of zero: a call with world size 0, a call of
    rank 0 in a world of two, and a call of rank 5 in the same world. *)
Definition zero_timeout_scenario : system nat :=
  start 0 1 [(1, 0, None); (0, 2, Some 7%nat); (5, 2, Some 8%nat)].

(** A world of three with a timeout of five seconds in which rank 1 times
    out, a call of rank 7 fails on its index, and rank 2 times out in its
    turn, each when its own five seconds have passed. *)
Definition stalled_events : list event :=
  [Arrive 0 1; Arrive 1 2; Arrive 2 3; Timeout 0 6; Timeout 2 8].

(** The same when the loop gets to both timeouts in one pass, at 9.0: the
    later call finds the lock free when it leaves. *)
Definition stalled_events_one_pass : list event :=
  [Arrive 0 1; Arrive 1 2; Arrive 2 3; Timeout 0 9; TimeoutRace 2 9].

(** A world of two with a warning interval of one second and a timeout of
    five: rank 1 waits from 1.0 on, rank 0 arrives at 3.0 and releases it
    just as its second interval ends, and the warning wins over the
    wake-up. *)
Definition lost_wakeup_scenario : system string :=
  start 5 1 [(1, 2, None); (0, 2, Some "ckpt-42")].

Definition lost_wakeup_events : list event :=
  [Arrive 0 1; Warn 0 2; Arrive 1 3; Warn 0 3; Warn 0 4; Warn 0 5;
   Timeout 0 6].

(** * LearnerGroupConfig

    A shallow embedding of [rllib/core/learner/learner_group_config.py]: the
    configuration object of a learner group with its chained setters.  The
    classes it stores and passes on come from other modules; they are type
    parameters here, the dataclasses it fills are records of the keyword
    arguments it gives them, and the constructor of the learner group class
    is the parameter [instantiate]. *)

Module LearnerGroupConfig.

(** An argument with the default [NotProvided]. *)
Inductive arg (A : Type) :=
| NotProvided
| Provided (a : A).
Arguments NotProvided {A}.
Arguments Provided {A} a.

(** [x if x is not NotProvided else old] *)
Definition provided {A} (x : arg A) (old : A) : A :=
  match x with
  | NotProvided => old
  | Provided v => v
  end.

(** [Union[float, int]] *)
Inductive number :=
| Int (z : Z)
| Float (f : float).

Section Config.
Context {LearnerGroupClass LearnerClass ModuleSpec LearnerHyperparameters
         TorchCompileConfig LearnerGroupT : Type}.
(** The class [LearnerGroup] and the value of [LearnerHyperparameters()]. *)
Variable LearnerGroup : LearnerGroupClass.
Variable default_hyperparameters : LearnerHyperparameters.

Record LearnerGroupScalingConfig := mkScaling {
  num_workers : option Z;
  num_gpus_per_worker : option Z;
  num_cpus_per_worker : option number;
  scaling_local_gpu_idx : option Z;
}.

Record FrameworkHyperparameters := mkFramework {
  framework_eager_tracing : option bool;
  framework_torch_compile_cfg : option TorchCompileConfig;
}.

Record LearnerSpec := mkLearnerSpec {
  spec_learner_class : option LearnerClass;
  spec_module_spec : option ModuleSpec;
  learner_group_scaling_config : LearnerGroupScalingConfig;
  spec_learner_hyperparameters : option LearnerHyperparameters;
  framework_hyperparameters : FrameworkHyperparameters;
}.

(** [self.learner_group_class(learner_spec)] *)
Variable instantiate : LearnerGroupClass → LearnerSpec → LearnerGroupT.

(** The attributes; each may hold [None]. *)
Record config := mkConfig {
  learner_group_class : LearnerGroupClass;
  module_spec : option ModuleSpec;
  learner_class : option LearnerClass;
  learner_hyperparameters : option LearnerHyperparameters;
  num_gpus_per_learner_worker : option Z;
  num_cpus_per_learner_worker : option number;
  num_learner_workers : option Z;
  local_gpu_idx : option Z;
  eager_tracing : option bool;
  torch_compile_cfg : option TorchCompileConfig;
}.

(** [cls or LearnerGroup]: a class is true, [None] is false. *)
Definition __init__ (cls : option LearnerGroupClass) : config :=
  {| learner_group_class := default LearnerGroup cls;
     module_spec := None;
     learner_class := None;
     learner_hyperparameters := Some default_hyperparameters;
     num_gpus_per_learner_worker := Some 0;
     num_cpus_per_learner_worker := Some (Int 1);
     num_learner_workers := Some 1;
     local_gpu_idx := Some 0;
     eager_tracing := Some true;
     torch_compile_cfg := None |}.

Definition validate (self : config) : result unit :=
  match module_spec self with
  | None =>
      Raise (ValueError
        "Cannot initialize an Learner without the module specs. Please provide the specs via .module(module_spec).")
  | Some _ =>
      match learner_class self with
      | None =>
          Raise (ValueError
            "Cannot initialize an Learner without an Learner class. Please provide the Learner class with .learner(learner_class=MyLearnerClass).")
      | Some _ => Ok tt
      end
  end.

Definition build (self : config) : result LearnerGroupT :=
  match validate self with
  | Raise e => Raise e
  | Ok _ =>
      let scaling_config :=
        {| num_workers := num_learner_workers self;
           num_gpus_per_worker := num_gpus_per_learner_worker self;
           num_cpus_per_worker := num_cpus_per_learner_worker self;
           scaling_local_gpu_idx := local_gpu_idx self |} in
      let framework_hps :=
        {| framework_eager_tracing := eager_tracing self;
           framework_torch_compile_cfg := torch_compile_cfg self |} in
      let learner_spec :=
        {| spec_learner_class := learner_class self;
           spec_module_spec := module_spec self;
           learner_group_scaling_config := scaling_config;
           spec_learner_hyperparameters := learner_hyperparameters self;
           framework_hyperparameters := framework_hps |} in
      Ok (instantiate (learner_group_class self) learner_spec)
  end.

(** The setters assign the arguments that are provided and return [self]. *)
Definition framework (eager_tracing' : arg (option bool))
    (torch_compile_cfg' : arg (option TorchCompileConfig))
    (self : config) : config :=
  {| learner_group_class := learner_group_class self;
     module_spec := module_spec self;
     learner_class := learner_class self;
     learner_hyperparameters := learner_hyperparameters self;
     num_gpus_per_learner_worker := num_gpus_per_learner_worker self;
     num_cpus_per_learner_worker := num_cpus_per_learner_worker self;
     num_learner_workers := num_learner_workers self;
     local_gpu_idx := local_gpu_idx self;
     eager_tracing := provided eager_tracing' (eager_tracing self);
     torch_compile_cfg :=
       provided torch_compile_cfg' (torch_compile_cfg self) |}.

Definition module (module_spec' : arg (option ModuleSpec)) (self : config)
    : config :=
  {| learner_group_class := learner_group_class self;
     module_spec := provided module_spec' (module_spec self);
     learner_class := learner_class self;
     learner_hyperparameters := learner_hyperparameters self;
     num_gpus_per_learner_worker := num_gpus_per_learner_worker self;
     num_cpus_per_learner_worker := num_cpus_per_learner_worker self;
     num_learner_workers := num_learner_workers self;
     local_gpu_idx := local_gpu_idx self;
     eager_tracing := eager_tracing self;
     torch_compile_cfg := torch_compile_cfg self |}.

Definition resources (num_learner_workers' : arg (option Z))
    (num_gpus_per_learner_worker' : arg (option Z))
    (num_cpus_per_learner_worker' : arg (option number))
    (local_gpu_idx' : arg (option Z)) (self : config) : config :=
  {| learner_group_class := learner_group_class self;
     module_spec := module_spec self;
     learner_class := learner_class self;
     learner_hyperparameters := learner_hyperparameters self;
     num_gpus_per_learner_worker :=
       provided num_gpus_per_learner_worker'
         (num_gpus_per_learner_worker self);
     num_cpus_per_learner_worker :=
       provided num_cpus_per_learner_worker'
         (num_cpus_per_learner_worker self);
     num_learner_workers :=
       provided num_learner_workers' (num_learner_workers self);
     local_gpu_idx := provided local_gpu_idx' (local_gpu_idx self);
     eager_tracing := eager_tracing self;
     torch_compile_cfg := torch_compile_cfg self |}.

Definition learner (learner_class' : arg (option LearnerClass))
    (learner_hyperparameters' : arg (option LearnerHyperparameters))
    (self : config) : config :=
  {| learner_group_class := learner_group_class self;
     module_spec := module_spec self;
     learner_class := provided learner_class' (learner_class self);
     learner_hyperparameters :=
       provided learner_hyperparameters' (learner_hyperparameters self);
     num_gpus_per_learner_worker := num_gpus_per_learner_worker self;
     num_cpus_per_learner_worker := num_cpus_per_learner_worker self;
     num_learner_workers := num_learner_workers self;
     local_gpu_idx := local_gpu_idx self;
     eager_tracing := eager_tracing self;
     torch_compile_cfg := torch_compile_cfg self |}.

(** The later of two arguments to the same parameter. *)
Definition later {A} (x y : arg A) : arg A :=
  match y with
  | NotProvided => x
  | Provided _ => y
  end.

End Config.

End LearnerGroupConfig.

(** * Properties *)

(** ** Floats *)

(** A positive float passes the test of [asyncio.wait_for]. *)
Lemma positive_not_expired (x : float) :
  positive x = true → expired x = false.
Proof.
  unfold positive, expired. rewrite ltb_spec, leb_spec.
  change (Prim2SF 0) with (S754_zero false).
  unfold SFltb, SFleb.
  destruct (Prim2SF x) as [[]|[]| |[] m e]; cbn; done.
Qed.

(** ** Unfolding the methods *)

Ltac unfold_methods :=
  unfold broadcast_from_rank_zero, broadcast_from_rank_zero_notified,
    broadcast_from_rank_zero_lock_lost,
    broadcast_from_rank_zero_timed_out, leave_unless_suspended,
    broadcast_block, wait_for_release, _wait_with_logging,
    _broadcast_collective_enter,
    _setup_or_validate_collective_op, _clear_states,
    _get_broadcast_collective_timeout_error, _get_time_elapsed_dict,
    _wait_with_logging_warn, get_counter, get_world_size, get_reduced_data,
    try_finally, mbind, mret, M_bind, M_ret, bind, ret, raise, gets, modify
    in *.

Section Methods.
Context {T : Type}.
Implicit Types (a : SynchronizationActor T) (data : option T).

Lemma _clear_states_eq a : _clear_states a = (Ok tt, cleared a).
Proof.
  unfold cleared. unfold_methods. cbn.
  case_bool_decide as Hc; cbn; [|done].
  unfold set_world_size, set_reduced_data, set_counter; cbn. by rewrite Hc.
Qed.

Lemma cleared_counter a : _counter (cleared a) = _counter a - 1.
Proof. unfold cleared. case_bool_decide; cbn; lia. Qed.

Lemma cleared_times a : _sync_start_times (cleared a) = _sync_start_times a.
Proof. unfold cleared. by case_bool_decide. Qed.

Lemma cleared_world_size a :
  _world_size (cleared a) =
  if bool_decide (_counter a - 1 = 0) then 0 else _world_size a.
Proof. unfold cleared. by case_bool_decide. Qed.

Lemma cleared_reduced_data a :
  _reduced_data (cleared a) =
  if bool_decide (_counter a - 1 = 0) then None else _reduced_data a.
Proof. unfold cleared. by case_bool_decide. Qed.

Lemma cleared_timeout_s a : _timeout_s (cleared a) = _timeout_s a.
Proof. unfold cleared. by case_bool_decide. Qed.

Lemma cleared_warn_interval_s a :
  _warn_interval_s (cleared a) = _warn_interval_s a.
Proof. unfold cleared. by case_bool_decide. Qed.

Lemma entered_timeout_s world_rank world_size data a :
  _timeout_s (entered world_rank world_size data a) = _timeout_s a.
Proof. unfold entered. by repeat (case_bool_decide; cbn in * ). Qed.

Lemma entered_warn_interval_s world_rank world_size data a :
  _warn_interval_s (entered world_rank world_size data a) =
  _warn_interval_s a.
Proof. unfold entered. by repeat (case_bool_decide; cbn in * ). Qed.

Lemma entered_world_size world_rank world_size data a :
  _world_size (entered world_rank world_size data a) =
  if bool_decide (_world_size a = 0) then world_size else _world_size a.
Proof. unfold entered. by repeat (case_bool_decide; cbn in * ). Qed.

Lemma entered_counter world_rank world_size data a :
  _counter (entered world_rank world_size data a) =
  if bool_decide
       (_counter a < _world_size (entered world_rank world_size data a))
  then _counter a + 1 else _counter a.
Proof.
  rewrite entered_world_size. unfold entered.
  repeat (case_bool_decide; cbn in * ); done || lia.
Qed.

Lemma entered_reduced_data world_rank world_size data a :
  _reduced_data (entered world_rank world_size data a) =
  if bool_decide (world_rank = 0) then data else _reduced_data a.
Proof. unfold entered. by repeat (case_bool_decide; cbn in * ). Qed.

Lemma entered_sync_start_times world_rank world_size data a :
  _sync_start_times (entered world_rank world_size data a) =
  if bool_decide (_world_size a = 0) then list_repeat None world_size
  else _sync_start_times a.
Proof. unfold entered. by repeat (case_bool_decide; cbn in * ). Qed.

#[local] Instance mismatch_dec world_size a : Decision (mismatch world_size a).
Proof. unfold mismatch. apply _. Defined.

Lemma enter_eq world_rank world_size data a :
  _broadcast_collective_enter world_rank world_size data a =
  if decide (mismatch world_size a)
  then (Raise (ValueError
                 (world_size_mismatch_message world_size (_world_size a))), a)
  else (Ok tt, entered world_rank world_size data a).
Proof.
  unfold entered, mismatch. unfold_methods. cbn.
  case_decide as Hm; repeat (case_bool_decide; cbn); try done; tauto.
Qed.

(** The first stretch of a call, case by case. *)
Lemma broadcast_from_rank_zero_eq world_rank world_size data now a :
  broadcast_from_rank_zero world_rank world_size data now a =
  if decide (mismatch world_size a)
  then (Raise (ValueError
                 (world_size_mismatch_message world_size (_world_size a))),
        cleared a)
  else
    let a' := entered world_rank world_size data a in
    if bool_decide (_counter a' = _world_size a')
    then (Ok (Returned (_reduced_data a')), cleared a')
    else if expired (_timeout_s a)
    then (Raise (BroadcastCollectiveTimeoutError
                   (map_seqZ 0 (time_elapsed now <$> _sync_start_times a'))
                   (_timeout_s a)),
          cleared a')
    else match list_setitem (_sync_start_times a') world_rank (Some now) with
         | Some times =>
             (Ok (if expired (_warn_interval_s a) then SuspendedLocked
                  else Suspended),
              set_sync_start_times times a')
         | None => (Raise IndexError, cleared a')
         end.
Proof.
  unfold broadcast_from_rank_zero.
  change (?m ;; ?k) with (bind m (λ _, k)). unfold bind at 1.
  rewrite enter_eq. case_decide.
  - cbn. unfold try_finally. by rewrite _clear_states_eq.
  - cbn zeta.
    rewrite <- (entered_timeout_s world_rank world_size data a).
    rewrite <- (entered_warn_interval_s world_rank world_size data a).
    unfold broadcast_block, wait_for_release, _wait_with_logging.
    unfold _get_broadcast_collective_timeout_error, _get_time_elapsed_dict.
    unfold mbind, mret, M_bind, M_ret, bind, ret, raise, gets, modify. cbn.
    case_bool_decide; cbn.
    + unfold try_finally. by rewrite _clear_states_eq.
    + destruct (expired (_timeout_s _)); cbn.
      { unfold try_finally. by rewrite _clear_states_eq. }
      destruct (list_setitem _ _ _); cbn.
      * by destruct (expired (_warn_interval_s _)).
      * unfold try_finally. by rewrite _clear_states_eq.
Qed.

Lemma notified_eq a :
  broadcast_from_rank_zero_notified a = (Ok (_reduced_data a), cleared a).
Proof.
  unfold broadcast_from_rank_zero_notified, try_finally, gets.
  by rewrite _clear_states_eq.
Qed.

Lemma timed_out_eq now a :
  broadcast_from_rank_zero_timed_out now a =
  (Raise (BroadcastCollectiveTimeoutError
            (map_seqZ 0 (time_elapsed now <$> _sync_start_times a))
            (_timeout_s a)),
   cleared a).
Proof.
  unfold broadcast_from_rank_zero_timed_out, try_finally.
  unfold _get_broadcast_collective_timeout_error, _get_time_elapsed_dict.
  unfold mbind, mret, M_bind, M_ret, bind, ret, raise, gets. cbn.
  by rewrite _clear_states_eq.
Qed.

Lemma lock_lost_eq now a :
  broadcast_from_rank_zero_lock_lost now a =
  (Raise (RuntimeError "Lock is not acquired."), cleared a).
Proof. unfold broadcast_from_rank_zero_lock_lost. by rewrite timed_out_eq. Qed.

End Methods.

(** From here on the stretches are used through their equations. *)
Arguments broadcast_from_rank_zero : simpl never.
Arguments broadcast_from_rank_zero_notified : simpl never.
Arguments broadcast_from_rank_zero_timed_out : simpl never.
Arguments broadcast_from_rank_zero_lock_lost : simpl never.
Arguments _wait_with_logging_warn : simpl never.

(** ** The accessors and the bookkeeping *)

Section Bookkeeping.
Context {T : Type}.
Implicit Types (a : SynchronizationActor T) (data : option T).

(** C8: [get_counter], [get_world_size] and [get_reduced_data] each return the
    current value of their field and hand back the actor as it was, so no
    field of it changes. *)
Theorem accessors_read_only a :
  get_counter a = (Ok (_counter a), a) ∧
  get_world_size a = (Ok (_world_size a), a) ∧
  get_reduced_data a = (Ok (_reduced_data a), a).
Proof. done. Qed.

(** C6: [_clear_states] lowers the counter by exactly one; when the counter
    thereby reaches zero the payload becomes [None] and the world size zero,
    otherwise both keep their values; the other fields are never touched.  A
    call that arrives after the counter has reached zero runs as it would on
    a newly constructed actor: nothing of the earlier round is left. *)
Theorem clear_states_drains a :
  let a' := (_clear_states a).2 in
  (_clear_states a).1 = Ok tt ∧
  _counter a' = _counter a - 1 ∧
  (_counter a' = 0 → _reduced_data a' = None ∧ _world_size a' = 0) ∧
  (_counter a' ≠ 0 →
     _reduced_data a' = _reduced_data a ∧ _world_size a' = _world_size a) ∧
  _sync_start_times a' = _sync_start_times a ∧
  _timeout_s a' = _timeout_s a ∧
  _warn_interval_s a' = _warn_interval_s a ∧
  (_counter a' = 0 → ∀ world_rank world_size data now,
     broadcast_from_rank_zero world_rank world_size data now a' =
     broadcast_from_rank_zero world_rank world_size data now
       (__init__ (_timeout_s a) (_warn_interval_s a))).
Proof.
  rewrite _clear_states_eq. cbn. unfold cleared.
  case_bool_decide as Hc; cbn; split_and!; try done; try lia.
Qed.

(** C7: entering never takes the counter past the world size.  The counter
    either stays or grows by one, and when it grows it does not exceed the
    world size of the round.  When the caller's world size is accepted and
    the counter already equals it, no exception is raised and the counter is
    left as it was. *)
Theorem enter_caps_counter world_rank world_size data a :
  let r := (_broadcast_collective_enter world_rank world_size data a).1 in
  let a' := (_broadcast_collective_enter world_rank world_size data a).2 in
  (_counter a' = _counter a ∨
   _counter a' = _counter a + 1 ∧ _counter a' ≤ _world_size a') ∧
  ((_world_size a = 0 ∨ world_size = _world_size a) →
   _counter a = world_size →
   r = Ok tt ∧ _counter a' = _counter a ∧ _world_size a' = world_size).
Proof.
  rewrite enter_eq. unfold mismatch, entered.
  case_decide as Hm; cbn; [split; [by left | tauto]|].
  repeat (case_bool_decide; cbn in * ); split;
    first [ by left | right; lia | intros; split_and!; (done || lia) ].
Qed.

(** C4: the first stretch of a call raises the world size [ValueError] if and
    only if a round is active (the stored world size is not zero) and the
    caller's world size differs from the stored one.  The message is the
    source's text with the caller's value and then the stored value in it.
    The exception comes out of the stretch that runs at the call, before any
    wait; the stretches that run after a wait never raise it. *)
Theorem configuration_mismatch_iff world_rank world_size data now a :
  let r := (broadcast_from_rank_zero world_rank world_size data now a).1 in
  ((∃ msg, r = Raise (ValueError msg)) ↔
   _world_size a ≠ 0 ∧ world_size ≠ _world_size a) ∧
  (∀ msg, r = Raise (ValueError msg) →
     msg = "Expects all callers to provide the same world size.                 Got "
           +:+ pretty world_size +:+ " and expected "
           +:+ pretty (_world_size a) +:+ ".") ∧
  (∀ msg, (broadcast_from_rank_zero_notified a).1 ≠ Raise (ValueError msg)) ∧
  (∀ msg now',
     (broadcast_from_rank_zero_timed_out now' a).1 ≠ Raise (ValueError msg)).
Proof.
  rewrite broadcast_from_rank_zero_eq, notified_eq. cbn zeta.
  unfold mismatch. split_and!.
  - case_decide as Hm; cbn; [split; eauto|].
    split; [|tauto]. intros [msg Hr]. revert Hr.
    case_bool_decide; [done|]. destruct (expired _); [done|].
    by destruct (list_setitem _ _ _).
  - intros msg. case_decide as Hm; cbn; [by intros [= <-]|].
    case_bool_decide; [done|]. destruct (expired _); [done|].
    by destruct (list_setitem _ _ _).
  - done.
  - intros msg now'. by rewrite timed_out_eq.
Qed.

(** The state after a call that fails on the world size: that of
    [_clear_states], so the counter is one lower than before the call. *)
Lemma mismatch_runs_clear_states world_rank world_size data now a :
  _world_size a ≠ 0 → world_size ≠ _world_size a →
  (broadcast_from_rank_zero world_rank world_size data now a).2 =
    (_clear_states a).2 ∧
  _counter (broadcast_from_rank_zero world_rank world_size data now a).2 =
    _counter a - 1.
Proof.
  intros Hw Hne. rewrite broadcast_from_rank_zero_eq, _clear_states_eq.
  rewrite decide_True by done. cbn. by rewrite cleared_counter.
Qed.

End Bookkeeping.

(** ** Counting in lists *)

Section Count.
Context {A : Type} (f : A → bool).
Implicit Types (l : list A).

Lemma count_bounds l : 0 ≤ count f l ≤ Z.of_nat (length l).
Proof. induction l as [|x l IH]; cbn; [lia|]. destruct (f x); lia. Qed.

Lemma count_insert l (i : nat) x y :
  l !! i = Some x →
  count f (<[i := y]> l) =
  count f l - (if f x then 1 else 0) + (if f y then 1 else 0).
Proof.
  revert i. induction l as [|z l IH]; intros [|i]; simpl; try done.
  - intros [= ->]. lia.
  - intros Hi. rewrite (IH _ Hi). lia.
Qed.

Lemma count_all l :
  count f l = Z.of_nat (length l) →
  ∀ (j : nat) x, l !! j = Some x → f x = true.
Proof.
  induction l as [|z l IH]; cbn; [done|]. intros Hc.
  pose proof (count_bounds l).
  destruct (f z) eqn:Hz; [|lia].
  intros [|j] x; cbn; [by intros [= <-]|]. apply IH. lia.
Qed.

Lemma count_none l :
  count f l = 0 → ∀ (j : nat) x, l !! j = Some x → f x = false.
Proof.
  induction l as [|z l IH]; cbn; [done|]. intros Hc.
  pose proof (count_bounds l).
  destruct (f z) eqn:Hz; [lia|].
  intros [|j] x; cbn; [by intros [= <-]|]. apply IH. lia.
Qed.

Lemma count_zero l :
  (∀ (j : nat) x, l !! j = Some x → f x = false) → count f l = 0.
Proof.
  induction l as [|z l IH]; cbn; [done|]. intros Hl.
  rewrite (Hl 0%nat z eq_refl), IH; [done|].
  intros j x. apply (Hl (S j)).
Qed.

Lemma count_pos_exists l :
  0 < count f l → ∃ (j : nat) x, l !! j = Some x ∧ f x = true.
Proof.
  induction l as [|z l IH]; cbn; [lia|].
  destruct (f z) eqn:Hz; [by exists 0%nat, z|].
  intros Hc. destruct IH as (j & x & ? & ?); [lia|]. by exists (S j), x.
Qed.

Lemma count_lt_exists l :
  count f l < Z.of_nat (length l) →
  ∃ (j : nat) x, l !! j = Some x ∧ f x = false.
Proof.
  induction l as [|z l IH]; cbn; [lia|].
  destruct (f z) eqn:Hz; [|by exists 0%nat, z].
  intros Hc. destruct IH as (j & x & ? & ?); [lia|]. by exists (S j), x.
Qed.

Lemma count_fmap_ext (g : A → A) l :
  (∀ x, f (g x) = f x) → count f (g <$> l) = count f l.
Proof.
  intros Hg. induction l as [|z l IH]; cbn; [done|]. by rewrite Hg, IH.
Qed.

End Count.

(** ** Runs of the scheduler *)

Section Runs.
Context {T : Type}.
Implicit Types (a : SynchronizationActor T) (data : option T)
  (sys : system T) (c : call T) (ev : event) (evs : list event).

Lemma run_app sys evs1 evs2 :
  run sys (evs1 ++ evs2) = sys' ← run sys evs1; run sys' evs2.
Proof.
  revert sys. induction evs1 as [|ev evs1 IH]; intros sys; cbn; [done|].
  destruct (step sys ev); cbn; [apply IH | done].
Qed.

(** An invariant of the steps is an invariant of the runs. *)
Lemma run_invariant (Inv : system T → Prop) :
  (∀ sys ev sys', Inv sys → step sys ev = Some sys' → Inv sys') →
  ∀ evs sys sys', Inv sys → run sys evs = Some sys' → Inv sys'.
Proof.
  intros Hstep evs. induction evs as [|ev evs IH]; intros sys sys' HI; cbn.
  - by intros [= <-].
  - destruct (step sys ev) as [sys1|] eqn:Hs; cbn; [|done]. eauto.
Qed.

Lemma warn_eq now a :
  ∃ w, _wait_with_logging_warn now a = (Ok w, a).
Proof. by eexists. Qed.

(** A warning changes neither the actor nor who is inside; it may put a
    notified call back into the wait. *)
Lemma warn_calls sys (i : nat) now sys' :
  step sys (Warn i now) = Some sys' →
  actor sys' = actor sys ∧
  (calls sys' = calls sys ∨
   ∃ c, calls sys !! i = Some c ∧ call_phase c = Notified ∧
        calls sys' = <[i := set_phase Waiting c]> (calls sys)).
Proof.
  cbn. destruct (calls sys !! i) as [c|] eqn:Hi; cbn; [|done].
  destruct (call_phase c) eqn:Hp; try done;
    destruct (warn_eq now (actor sys)) as [w ->]; intros [= <-]; cbn;
    (split; [done|]); eauto.
Qed.

(** What a step may do to the actor. *)
Lemma step_actor_cases sys ev sys' :
  step sys ev = Some sys' →
  actor sys' = actor sys ∨
  actor sys' = cleared (actor sys) ∨
  ∃ world_rank world_size data,
    ¬ mismatch world_size (actor sys) ∧
    let a' := entered world_rank world_size data (actor sys) in
    actor sys' = cleared a' ∨
    ∃ now times,
      list_setitem (_sync_start_times a') world_rank (Some now) = Some times ∧
      actor sys' = set_sync_start_times times a'.
Proof.
  destruct ev as [i now|i|i now|i now|i now]; cbn;
    destruct (calls sys !! i) as [c|]; cbn; try done;
    destruct (call_phase c); try done;
    try (rewrite notified_eq; intros [= <-]; cbn; by auto);
    try (rewrite timed_out_eq; intros [= <-]; cbn; by auto);
    try (rewrite lock_lost_eq; intros [= <-]; cbn; by auto);
    try (destruct (warn_eq now (actor sys)) as [w ->]; intros [= <-]; cbn;
         by auto).
  rewrite broadcast_from_rank_zero_eq.
  case_decide as Hm; [intros [= <-]; cbn; auto|].
  cbn zeta. case_bool_decide.
  { intros [= <-]. cbn. right. right. eexists _, _, _. split; [done|].
    by left. }
  destruct (expired (_timeout_s _)).
  { intros [= <-]. cbn. right. right. eexists _, _, _. split; [done|].
    by left. }
  destruct (list_setitem _ _ _) as [times|] eqn:Ht.
  - destruct (expired _); intros [= <-]; cbn;
      right; right; eexists _, _, _; (split; [done|]); right; eauto.
  - intros [= <-]; cbn.
    right; right; eexists _, _, _; (split; [done|]); by left.
Qed.

Lemma list_setitem_length {A} (l l' : list A) i x :
  list_setitem l i x = Some l' → length l' = length l.
Proof.
  unfold list_setitem. destruct (py_index l i); cbn; [|done].
  intros [= <-]. apply length_insert.
Qed.

Lemma times_ok_cleared a : times_ok a → times_ok (cleared a).
Proof. unfold times_ok, cleared. by case_bool_decide. Qed.

Lemma times_ok_entered world_rank world_size data a :
  times_ok a → times_ok (entered world_rank world_size data a).
Proof.
  unfold times_ok, entered, list_repeat.
  repeat (case_bool_decide; cbn); try done; intros; by rewrite length_replicate.
Qed.

Lemma times_ok_step sys ev sys' :
  times_ok (actor sys) → step sys ev = Some sys' → times_ok (actor sys').
Proof.
  intros Hok Hs.
  destruct (step_actor_cases _ _ _ Hs)
    as [->|[->|(r & w & d & _ & [->|(now & times & Ht & ->)])]];
    auto using times_ok_cleared, times_ok_entered.
  pose proof (times_ok_entered r w d _ Hok) as Hok'.
  unfold times_ok in *. cbn. intros Hw.
  rewrite (list_setitem_length _ _ _ _ Ht). auto.
Qed.

Lemma times_ok_run timeout_s warn_interval_s args evs sys :
  run (start timeout_s warn_interval_s args) evs = Some sys →
  times_ok (actor sys).
Proof.
  apply (run_invariant (λ sys, times_ok (actor sys))).
  - intros ???. apply times_ok_step.
  - done.
Qed.

Lemma py_index_out_of_range {A} (l : list A) (i : Z) :
  Z.of_nat (length l) ≤ i ∨ i < - Z.of_nat (length l) → py_index l i = None.
Proof.
  intros Hi. unfold py_index. cbn zeta.
  rewrite !bool_decide_false by lia. done.
Qed.

(** No step changes the arguments of the calls. *)
Lemma args_of_notify_all (cs : list (call T)) :
  args_of <$> notify_all cs = args_of <$> cs.
Proof.
  unfold notify_all. rewrite <- list_fmap_compose. apply list_fmap_ext.
  intros j c _. cbn. by destruct (call_phase c).
Qed.

Lemma args_of_insert (cs : list (call T)) i c p :
  (args_of <$> cs) !! i = Some (args_of c) →
  args_of <$> <[i := set_phase p c]> cs = args_of <$> cs.
Proof. intros Hi. rewrite list_fmap_insert. apply list_insert_id, Hi. Qed.

Lemma step_args sys ev sys' :
  step sys ev = Some sys' → args_of <$> calls sys' = args_of <$> calls sys.
Proof.
  destruct ev as [i now|i|i now|i now|i now]; cbn;
    destruct (calls sys !! i) as [c|] eqn:Hi; cbn; try done;
    destruct (call_phase c); try done;
    try (destruct (warn_eq now (actor sys)) as [w ->]);
    try (destruct (broadcast_from_rank_zero_notified _) as [r a]);
    try (destruct (broadcast_from_rank_zero_timed_out _ _) as [r a]);
    try (destruct (broadcast_from_rank_zero_lock_lost _ _) as [r a]);
    try (intros [= <-]; cbn; first
           [ done
           | apply args_of_insert; by rewrite list_lookup_fmap, Hi ]).
  destruct (broadcast_from_rank_zero _ _ _ _ _) as [[[v| |]|e] a];
    intros [= <-]; cbn;
    try (apply args_of_insert; by rewrite list_lookup_fmap, Hi).
  rewrite args_of_insert; [apply args_of_notify_all|].
  by rewrite args_of_notify_all, list_lookup_fmap, Hi.
Qed.

(** [notify_all] turns the waiting calls into notified ones and leaves the
    others as they are. *)
Lemma notify_all_lookup (cs : list (call T)) (j : nat) c' :
  notify_all cs !! j = Some c' →
  ∃ c0, cs !! j = Some c0 ∧
    (call_phase c0 = Waiting ∧ c' = set_phase Notified c0 ∨
     call_phase c0 ≠ Waiting ∧ c' = c0).
Proof.
  unfold notify_all. rewrite list_lookup_fmap.
  destruct (cs !! j) as [c0|]; cbn; [|done]. intros [= <-].
  exists c0. split; [done|]. destruct (call_phase c0) eqn:Hp; auto.
Qed.

Lemma notify_all_lookup_other (cs : list (call T)) (j : nat) c :
  cs !! j = Some c → call_phase c ≠ Waiting → notify_all cs !! j = Some c.
Proof.
  intros Hj Hp. unfold notify_all. rewrite list_lookup_fmap, Hj. cbn.
  by destruct (call_phase c).
Qed.

(** A call that has ended stays as it is. *)
Lemma step_finished sys ev sys' (j : nat) c :
  step sys ev = Some sys' → calls sys !! j = Some c → is_finished c = true →
  calls sys' !! j = Some c.
Proof.
  intros Hs Hj Hf. revert Hs.
  assert (call_phase c ≠ Waiting) as Hnw.
  { unfold is_finished in Hf. by destruct (call_phase c). }
  destruct ev as [i now|i|i now|i now|i now]; cbn;
    destruct (calls sys !! i) as [c0|] eqn:Hi; cbn; try done;
    destruct (call_phase c0) eqn:Hp; try done;
    (assert (i ≠ j) as Hij
       by (intros ->; simplify_eq; unfold is_finished in Hf;
           by rewrite Hp in Hf));
    try (destruct (warn_eq now (actor sys)) as [w ->]);
    try (destruct (broadcast_from_rank_zero_notified _) as [r a]);
    try (destruct (broadcast_from_rank_zero_timed_out _ _) as [r a]);
    try (destruct (broadcast_from_rank_zero_lock_lost _ _) as [r a]);
    try (intros [= <-]; cbn; by rewrite ?list_lookup_insert_ne by done).
  destruct (broadcast_from_rank_zero _ _ _ _ _) as [[[v| |]|e] a];
    intros [= <-]; cbn; rewrite list_lookup_insert_ne by done; try done.
  by apply notify_all_lookup_other.
Qed.

Lemma timed_out_step sys ev sys' :
  Exists (λ c, timed_out c = true) (calls sys) → step sys ev = Some sys' →
  Exists (λ c, timed_out c = true) (calls sys').
Proof.
  intros (c & [j Hj]%list_elem_of_lookup_1 & Hc)%Exists_exists Hs.
  apply Exists_exists. exists c. split; [|done].
  apply list_elem_of_lookup_2 with j. eapply step_finished; [done..|].
  unfold timed_out in Hc. unfold is_finished. by destruct (call_phase c).
Qed.

(** The configuration along the runs. *)
Lemma configured_start timeout_s warn_interval_s
    (args : list (Z * Z * option T)) :
  configured timeout_s warn_interval_s (start timeout_s warn_interval_s args).
Proof.
  assert (∀ (j : nat) c,
            calls (start timeout_s warn_interval_s args) !! j = Some c →
            call_phase c = Pending) as Hp.
  { intros j c. cbn. rewrite list_lookup_fmap.
    destruct (args !! j) as [[[r w] d]|]; cbn; [|done]. by intros [= <-]. }
  split_and!; [done|done| |].
  - intros _ j c Hj. by rewrite (Hp j c Hj).
  - intros _. split; [done|]. intros j c Hj. unfold inside.
    by rewrite (Hp j c Hj).
Qed.

Lemma inside_notify_all_lookup (cs : list (call T)) (j : nat) c' :
  (∀ (j : nat) c, cs !! j = Some c → inside c = false) →
  notify_all cs !! j = Some c' → inside c' = false.
Proof.
  intros Hcs [c0 [Hj [[Hw _]|[_ ->]]]]%notify_all_lookup; [|by eapply Hcs].
  apply Hcs in Hj. unfold inside in Hj. by rewrite Hw in Hj.
Qed.

Lemma configured_step timeout_s warn_interval_s sys ev sys' :
  configured timeout_s warn_interval_s sys → step sys ev = Some sys' →
  configured timeout_s warn_interval_s sys'.
Proof.
  intros (Ht & Hw & Hspin & Hexp) Hs.
  assert (_timeout_s (actor sys') = timeout_s ∧
          _warn_interval_s (actor sys') = warn_interval_s) as [Ht' Hw'].
  { destruct (step_actor_cases _ _ _ Hs)
      as [->|[->|(r & w & d & _ & [->|(now & times & _ & ->)])]]; cbn;
      by rewrite ?cleared_timeout_s, ?cleared_warn_interval_s,
           ?entered_timeout_s, ?entered_warn_interval_s. }
  split_and!; [done|done| |].
  - (* no call spins under a positive warning interval *)
    intros Hnw j c'. specialize (Hspin Hnw). revert Hs.
    destruct ev as [i now|i|i now|i now|i now]; cbn;
      destruct (calls sys !! i) as [c0|] eqn:Hi; cbn; try done;
      destruct (call_phase c0) eqn:Hp; try done;
      try (destruct (warn_eq now (actor sys)) as [w ->]);
      try (destruct (broadcast_from_rank_zero_notified _) as [r a]);
      try (destruct (broadcast_from_rank_zero_timed_out _ _) as [r a]);
      try (destruct (broadcast_from_rank_zero_lock_lost _ _) as [r a]);
      try (intros [= <-]; cbn;
           first [ by apply Hspin
                 | intros [(-> & <- & _)|[_ Hj]]%list_lookup_insert_Some;
                   [done|by eapply Hspin] ]).
    rewrite broadcast_from_rank_zero_eq. rewrite Hw, Hnw.
    case_decide; [|cbn zeta; case_bool_decide;
                   [|destruct (expired (_timeout_s (actor sys)));
                     [|destruct (list_setitem _ _ _)]]];
      cbn; intros [= <-]; cbn;
      intros [(-> & <- & _)|[_ Hj]]%list_lookup_insert_Some;
      try done; try (by eapply Hspin).
    apply notify_all_lookup in Hj as [c1 [Hj [[_ ->]|[_ ->]]]];
      [done|by eapply Hspin].
  - (* no call is inside under a timeout that is not positive *)
    intros Hex. destruct (Hexp Hex) as [Hc Hin]. revert Hs.
    assert (∀ a, _counter a ≤ 0 → _counter (cleared a) ≤ 0) as Hcl.
    { intros a. rewrite cleared_counter. lia. }
    assert (∀ r w d, _counter (cleared (entered r w d (actor sys))) ≤ 0)
      as Hen.
    { intros r w d. rewrite cleared_counter, entered_counter.
      case_bool_decide; lia. }
    destruct ev as [i now|i|i now|i now|i now]; cbn;
      destruct (calls sys !! i) as [c0|] eqn:Hi; cbn; try done;
      destruct (call_phase c0) eqn:Hp; try done;
      try (apply Hin in Hi; unfold inside in Hi; by rewrite Hp in Hi).
    rewrite broadcast_from_rank_zero_eq. rewrite Ht, Hex.
    case_decide; [|cbn zeta; case_bool_decide]; intros [= <-]; cbn;
      (split; [by auto|]);
      intros j c' [(-> & <- & _)|[_ Hj]]%list_lookup_insert_Some;
      try done; try (by eapply Hin).
    by eapply inside_notify_all_lookup.
Qed.

Lemma configured_run timeout_s warn_interval_s
    (args : list (Z * Z * option T)) evs sys :
  run (start timeout_s warn_interval_s args) evs = Some sys →
  configured timeout_s warn_interval_s sys.
Proof.
  apply (run_invariant (configured timeout_s warn_interval_s)).
  - intros ???. apply configured_step.
  - apply configured_start.
Qed.


(** The exception of a timed out call: the configured timeout and, for each
    index of [_sync_start_times], the time elapsed since the recorded start,
    or [None] when no start is recorded or the recorded start is [0.0]. *)
Lemma timeout_error_snapshot sys i c now :
  calls sys !! i = Some c →
  inside c = true →
  ∃ d,
    step sys (Timeout i now) =
      Some (finish i c
              (Raise (BroadcastCollectiveTimeoutError d
                        (_timeout_s (actor sys))))
              (cleared (actor sys)) (calls sys) sys) ∧
    (∀ k : nat,
       d !! Z.of_nat k =
       time_elapsed now <$> _sync_start_times (actor sys) !! k) ∧
    (∀ z, z < 0 → d !! z = None).
Proof.
  intros Hi Hp. cbn. rewrite Hi. cbn. rewrite timed_out_eq.
  eexists. split; [unfold inside in Hp; by destruct (call_phase c)|]. split.
  - intros k. rewrite lookup_map_seqZ_0 by lia.
    by rewrite Nat2Z.id, list_lookup_fmap.
  - intros z Hz. apply lookup_map_seqZ_None. lia.
Qed.

End Runs.

(** ** Progress of the calls *)

Section Measure.
Context {T : Type}.
Implicit Types (sys : system T) (c : call T).

Lemma measure_nonneg sys : 0 ≤ measure sys.
Proof.
  unfold measure.
  pose proof (count_bounds is_pending (calls sys)).
  pose proof (count_bounds inside (calls sys)). lia.
Qed.

Lemma pending_notify_all (cs : list (call T)) :
  count is_pending (notify_all cs) = count is_pending cs.
Proof.
  unfold notify_all. apply count_fmap_ext.
  intros c. unfold is_pending.
  destruct (call_phase c) eqn:Hp; cbn; by rewrite ?Hp.
Qed.

Lemma inside_notify_all (cs : list (call T)) :
  count inside (notify_all cs) = count inside cs.
Proof.
  unfold notify_all. apply count_fmap_ext.
  intros c. unfold inside. destruct (call_phase c) eqn:Hp; cbn; by rewrite ?Hp.
Qed.

(** A pending call can always be scheduled, and that lowers the measure. *)
Lemma arrive_measure sys (i : nat) c now :
  calls sys !! i = Some c → call_phase c = Pending →
  ∃ sys', step sys (Arrive i now) = Some sys' ∧ measure sys' < measure sys.
Proof.
  intros Hi Hp. cbn. rewrite Hi. cbn. rewrite Hp.
  assert (is_pending c = true) as Hpc by (unfold is_pending; by rewrite Hp).
  assert (inside c = false) as Hic by (unfold inside; by rewrite Hp).
  assert (notify_all (calls sys) !! i = Some c) as Hi'.
  { unfold notify_all. rewrite list_lookup_fmap, Hi. cbn. by rewrite Hp. }
  destruct (broadcast_from_rank_zero _ _ _ _ _) as [[[v| |]|e] a];
    (eexists; split; [done|]); unfold measure, finish; cbn.
  - rewrite !(count_insert _ _ _ _ _ Hi'), Hpc, Hic.
    rewrite pending_notify_all, inside_notify_all. cbn. lia.
  - rewrite !(count_insert _ _ _ _ _ Hi), Hpc, Hic. cbn. lia.
  - rewrite !(count_insert _ _ _ _ _ Hi), Hpc, Hic. cbn. lia.
  - rewrite !(count_insert _ _ _ _ _ Hi), Hpc, Hic. cbn. lia.
Qed.

(** A notified call that is back in the wait is as much inside as before. *)
Lemma inside_rewait (cs : list (call T)) (i : nat) c :
  cs !! i = Some c → inside c = true →
  count inside (<[i := set_phase Waiting c]> cs) = count inside cs.
Proof. intros Hi Hic. rewrite (count_insert _ _ _ _ _ Hi), Hic. cbn. lia. Qed.

(** The wake-up of a notified call. *)
Lemma wake_eq sys (i : nat) c :
  calls sys !! i = Some c → call_phase c = Notified →
  step sys (Wake i) =
  Some (finish i c (Ok (_reduced_data (actor sys))) (cleared (actor sys))
          (calls sys) sys).
Proof. intros Hi Hp. cbn. rewrite Hi. cbn. by rewrite Hp, notified_eq. Qed.

(** It lowers the measure too. *)
Lemma wake_measure sys (i : nat) c :
  calls sys !! i = Some c → call_phase c = Notified →
  measure (finish i c (Ok (_reduced_data (actor sys))) (cleared (actor sys))
             (calls sys) sys) < measure sys.
Proof.
  intros Hi Hp.
  assert (is_pending c = false) as Hpc by (unfold is_pending; by rewrite Hp).
  assert (inside c = true) as Hic by (unfold inside; by rewrite Hp).
  unfold measure, finish; cbn.
  rewrite !(count_insert _ _ _ _ _ Hi), Hpc, Hic. cbn. lia.
Qed.

End Measure.

(** ** One round of [n] calls

    Every call declares the world size [n] and a rank that indexes a list of
    length [n]; the calls of rank 0, if any, carry the payload [V], and [V]
    is [None] if there is none. *)

Section Round.
Context {T : Type}.
Variables (n : nat) (V : option T) (args : list (Z * Z * option T)).
Hypothesis n_pos : (0 < n)%nat.
Hypothesis args_length : length args = n.
Hypothesis args_round :
  ∀ (j : nat) r w d, args !! j = Some (r, w, d) →
    w = Z.of_nat n ∧ - Z.of_nat n ≤ r < Z.of_nat n ∧ (r = 0 → d = V).
Hypothesis args_value :
  (∃ (j : nat) w d, args !! j = Some (0, w, d)) ∨ V = None.
Implicit Types (sys : system T) (c : call T).

Lemma round_inv_start timeout_s warn_interval_s :
  round_inv n V args (start timeout_s warn_interval_s args).
Proof.
  assert (∀ (j : nat) c,
            calls (start timeout_s warn_interval_s args) !! j = Some c →
            call_phase c = Pending) as Hp.
  { intros j c. cbn. rewrite list_lookup_fmap.
    destruct (args !! j) as [[[r w] d]|]; cbn; [|done]. by intros [= <-]. }
  assert (count inside (calls (start timeout_s warn_interval_s args)) = 0)
    as Hc.
  { apply count_zero. intros j c Hj. unfold inside. by rewrite (Hp j c Hj). }
  split.
  - cbn. rewrite <- list_fmap_compose. rewrite <- (list_fmap_id args) at 2.
    apply list_fmap_ext. by intros j [[r w] d] _.
  - right. left. unfold gathering. rewrite Hc. cbn. split_and!; try done.
    + intros j c Hj. left. by apply (Hp j).
    + lia.
    + right. split; [done|]. intros j c Hj Hw. unfold inside in Hw.
      by rewrite (Hp j c Hj) in Hw.
Qed.

Lemma args_calls_length sys :
  args_of <$> calls sys = args → length (calls sys) = n.
Proof. intros <-. by rewrite length_fmap in args_length. Qed.

Lemma args_call sys (j : nat) c :
  args_of <$> calls sys = args → calls sys !! j = Some c →
  call_world_size c = Z.of_nat n ∧
  - Z.of_nat n ≤ call_rank c < Z.of_nat n ∧
  (call_rank c = 0 → call_data c = V).
Proof.
  intros Ha Hj. apply (args_round j).
  by rewrite <- Ha, list_lookup_fmap, Hj.
Qed.

Lemma py_index_in_range {A} (l : list A) (i : Z) :
  - Z.of_nat (length l) ≤ i < Z.of_nat (length l) → is_Some (py_index l i).
Proof.
  intros Hi. unfold py_index. cbn zeta.
  case_bool_decide; [done|]. by rewrite bool_decide_true by lia.
Qed.

(** After the release, a call that leaves, leaves the others released. *)
Lemma wake_released sys (i : nat) c :
  released n V sys → calls sys !! i = Some c → call_phase c = Notified →
  released n V (finish i c (Ok (_reduced_data (actor sys)))
                  (cleared (actor sys)) (calls sys) sys).
Proof.
  intros (Hph & Hcnt & Hw0 & HwN) Hi Hp.
  assert (inside c = true) as Hic by (unfold inside; by rewrite Hp).
  pose proof (count_insert inside (calls sys) i c
                (set_phase (Finished (Ok (_reduced_data (actor sys)))) c) Hi)
    as Hins.
  rewrite Hic in Hins. cbn in Hins.
  pose proof (count_bounds inside (<[i:=set_phase
    (Finished (Ok (_reduced_data (actor sys)))) c]> (calls sys))) as Hb.
  destruct HwN as [HwN Hrd]; [lia|].
  unfold released, finish. cbn.
  rewrite cleared_counter, cleared_world_size, cleared_reduced_data.
  split_and!.
  - intros j c' [(-> & <- & _)|[_ Hj]]%list_lookup_insert_Some.
    + right. cbn. by rewrite Hrd.
    + by apply (Hph j).
  - lia.
  - intros Hc. by rewrite bool_decide_true.
  - intros Hc. by rewrite bool_decide_false.
Qed.

Lemma warn_round sys (i : nat) now sys' :
  gathering n V sys ∨ released n V sys → step sys (Warn i now) = Some sys' →
  gathering n V sys' ∨ released n V sys'.
Proof.
  intros Hinv [Ha [Hc|(c & Hi & Hp & Hc)]]%warn_calls.
  { unfold gathering, released, payload_ok in *. by rewrite Ha, Hc. }
  destruct Hinv as [(Hph & _)|(Hph & Hcnt & Hw)].
  { destruct (Hph _ _ Hi) as [?|[?|?]]; congruence. }
  assert (inside c = true) as Hic by (unfold inside; by rewrite Hp).
  right. unfold released. rewrite Ha, Hc.
  rewrite (count_insert _ _ _ _ _ Hi), Hic. cbn.
  split_and!; [|lia|tauto..].
  intros j c' [(-> & <- & _)|[_ Hj]]%list_lookup_insert_Some;
    [by left|by apply (Hph j)].
Qed.

(** What entering does to the actor while the round gathers. *)
Lemma gathering_entered sys world_rank data :
  gathering n V sys →
  let a' := entered world_rank (Z.of_nat n) data (actor sys) in
  ¬ mismatch (Z.of_nat n) (actor sys) ∧
  _world_size a' = Z.of_nat n ∧
  _counter a' = _counter (actor sys) + 1 ∧
  length (_sync_start_times a') = n.
Proof.
  intros (Hph & Hcnt & Hlt & Hw0 & HwN & Htimes & Hrd). cbn zeta.
  assert (_world_size (actor sys) = 0 ∨ _world_size (actor sys) = Z.of_nat n)
    as Hw.
  { destruct (decide (_counter (actor sys) = 0)); auto. }
  assert (_world_size (entered world_rank (Z.of_nat n) data (actor sys))
          = Z.of_nat n) as Hw'.
  { rewrite entered_world_size. case_bool_decide; [done|]. by destruct Hw. }
  split_and!.
  - unfold mismatch. intros [? ?]. by destruct Hw.
  - done.
  - rewrite entered_counter, Hw'. by rewrite bool_decide_true.
  - rewrite entered_sync_start_times. case_bool_decide as H0.
    + unfold list_repeat. rewrite length_replicate. lia.
    + rewrite Htimes by done. destruct Hw; [done|]. lia.
Qed.

(** An arrival while the round gathers: the call times out at once (under a
    timeout that is not positive), or it joins the wait, or it is the last
    and releases the round, and then no call is left waiting. *)
Lemma arrive_gathering sys (i : nat) c now sys' :
  args_of <$> calls sys = args →
  gathering n V sys →
  calls sys !! i = Some c → call_phase c = Pending →
  step sys (Arrive i now) = Some sys' →
  expired (_timeout_s (actor sys)) = true ∧
    Exists (λ c, timed_out c = true) (calls sys') ∨
  gathering n V sys' ∨
  released n V sys' ∧ Forall (λ c, call_phase c ≠ Waiting) (calls sys').
Proof.
  intros Hargs Hg Hi Hp. cbn. rewrite Hi. cbn. rewrite Hp.
  destruct (args_call _ _ _ Hargs Hi) as (Hws & Hrank & Hdata).
  pose proof (args_calls_length _ Hargs) as Hlen.
  rewrite Hws, broadcast_from_rank_zero_eq.
  destruct (gathering_entered sys (call_rank c) (call_data c) Hg)
    as (Hm & Hw' & Hc' & Ht').
  destruct Hg as (Hph & Hcnt & Hlt & Hw0 & HwN & Htimes & Hrd).
  rewrite decide_False by done. cbn zeta.
  set (a' := entered _ _ _ _) in *.
  assert (inside c = false) as Hic by (unfold inside; by rewrite Hp).
  assert (_reduced_data a' = V ∨
          call_rank c ≠ 0 ∧ _reduced_data a' = None ∧
          ∀ (j : nat) c0, calls sys !! j = Some c0 →
            inside c0 = true → call_rank c0 ≠ 0) as Hrd'.
  { unfold a'. rewrite entered_reduced_data. case_bool_decide as Hr0.
    - left. auto.
    - destruct Hrd as [?|[? ?]]; auto. }
  assert (i < length (calls sys))%nat as Hil by (by eapply lookup_lt_Some).
  case_bool_decide as Hlast.
  - (* the last arrival *)
    intros [= <-]. right. right.
    assert (∀ (j : nat) c0, j ≠ i → calls sys !! j = Some c0 →
              inside c0 = true) as Hall.
    { intros j c0 Hji Hj.
      apply (count_all inside (<[i := set_phase Waiting c]> (calls sys)))
        with j.
      - rewrite (count_insert _ _ _ _ _ Hi), Hic, length_insert. cbn. lia.
      - by rewrite list_lookup_insert_ne. }
    assert (_reduced_data a' = V) as HV.
    { destruct Hrd' as [?|(Hr0 & Hnone & Hno)]; [done|].
      destruct args_value as [(j0 & w & d & Hj0)|HVn]; [|congruence].
      exfalso. rewrite <- Hargs, list_lookup_fmap in Hj0.
      destruct (calls sys !! j0) as [c0|] eqn:Hc0; [|done].
      injection Hj0 as Hr _ _.
      destruct (decide (j0 = i)) as [->|Hne]; [congruence|].
      by apply (Hno j0 c0 Hc0 (Hall j0 c0 Hne Hc0)). }
    assert ((notify_all (calls sys)) !! i = Some c) as Hi'.
    { apply notify_all_lookup_other; [done|]. by rewrite Hp. }
    split.
    + unfold released, finish. cbn.
      rewrite cleared_counter, cleared_world_size, cleared_reduced_data.
      rewrite (count_insert _ _ _ _ _ Hi'), Hic, inside_notify_all. cbn.
      split_and!.
      * intros j c' [(-> & <- & _)|[Hji Hj]]%list_lookup_insert_Some.
        { right. cbn. by rewrite HV. }
        left.
        apply notify_all_lookup in Hj as [c0 [Hj [[_ ->]|[_ ->]]]];
          [done|by eapply Hall].
      * lia.
      * intros Hc. by rewrite bool_decide_true.
      * intros Hc. by rewrite bool_decide_false.
    + apply Forall_lookup. intros j c'. unfold finish. cbn.
      intros [(-> & <- & _)|[Hji Hj]]%list_lookup_insert_Some; [done|].
      by apply notify_all_lookup in Hj as [c0 [Hj [[_ ->]|[? ->]]]].
  - destruct (expired (_timeout_s (actor sys))) eqn:Hex.
    { (* the timeout at the arrival *)
      intros [= <-]. left. split; [done|]. apply Exists_exists.
      eexists. split; [|shelve].
      eapply list_elem_of_lookup_2. unfold finish. cbn.
      by apply list_lookup_insert_eq.
      Unshelve. done. }
    (* an earlier arrival *)
    destruct (py_index_in_range (_sync_start_times a') (call_rank c))
      as [k Hk]; [lia|].
    unfold list_setitem. rewrite Hk. cbn.
    pose proof (count_bounds inside (calls sys)).
    destruct (expired (_warn_interval_s (actor sys))); intros [= <-];
      right; left; unfold gathering; cbn;
      rewrite (count_insert _ _ _ _ _ Hi), Hic; cbn;
      (split_and!; try lia;
       [ intros j c' [(-> & <- & _)|[Hji Hj]]%list_lookup_insert_Some;
         [by auto|by apply (Hph j)]
       | unfold times_ok; cbn; rewrite length_insert; lia
       | unfold payload_ok; cbn;
         destruct Hrd' as [?|(Hr0 & Hnone & Hno)]; [by left|right];
         (split; [done|]);
         intros j c' [(-> & <- & _)|[Hji Hj]]%list_lookup_insert_Some;
         [done|by apply (Hno j)] ]).
Qed.

(** The invariant of the round holds along every run. *)
Lemma round_step sys ev sys' :
  round_inv n V args sys → step sys ev = Some sys' → round_inv n V args sys'.
Proof.
  intros [Hargs Hinv] Hs. split; [by rewrite (step_args _ _ _ Hs)|].
  destruct Hinv as [Hto|Hgr]; [left; by eapply timed_out_step|].
  assert (∀ (i : nat) c r a,
            calls sys !! i = Some c →
            timed_out (set_phase (Finished r) c) = true →
            Exists (λ c, timed_out c = true)
              (calls (finish i c r a (calls sys) sys)))
    as Hout.
  { intros i c r a Hi Hr. apply Exists_exists. eexists. split; [|exact Hr].
    eapply list_elem_of_lookup_2. unfold finish. cbn.
    apply list_lookup_insert_eq. by eapply lookup_lt_Some. }
  destruct ev as [i now|i|i now|i now|i now].
  - destruct (calls sys !! i) as [c|] eqn:Hi; [|by cbn in Hs; rewrite Hi in Hs].
    destruct (call_phase c) eqn:Hp;
      try (by cbn in Hs; rewrite Hi in Hs; cbn in Hs; rewrite Hp in Hs).
    destruct Hgr as [Hg|(Hph & _)].
    + destruct (arrive_gathering _ _ _ _ _ Hargs Hg Hi Hp Hs)
        as [[_ ?]|[?|[? _]]]; auto.
    + destruct (Hph _ _ Hi) as [Hin|?]; [|congruence].
      unfold inside in Hin. by rewrite Hp in Hin.
  - destruct (calls sys !! i) as [c|] eqn:Hi; [|by cbn in Hs; rewrite Hi in Hs].
    destruct (call_phase c) eqn:Hp;
      try (by cbn in Hs; rewrite Hi in Hs; cbn in Hs; rewrite Hp in Hs).
    rewrite (wake_eq _ _ _ Hi Hp) in Hs. injection Hs as <-.
    destruct Hgr as [(Hph & _)|Hr].
    + destruct (Hph _ _ Hi) as [?|[?|?]]; congruence.
    + right. right. by apply wake_released.
  - right. by eapply warn_round.
  - left. revert Hs. cbn.
    destruct (calls sys !! i) as [c|] eqn:Hi; cbn; [|done].
    destruct (call_phase c); try done;
      rewrite timed_out_eq; intros [= <-]; by apply Hout.
  - left. revert Hs. cbn.
    destruct (calls sys !! i) as [c|] eqn:Hi; cbn; [|done].
    destruct (call_phase c); try done;
      rewrite lock_lost_eq; intros [= <-]; by apply Hout.
Qed.

Lemma round_inv_run timeout_s warn_interval_s evs sys :
  run (start timeout_s warn_interval_s args) evs = Some sys →
  round_inv n V args sys.
Proof.
  apply (run_invariant (round_inv n V args)).
  - intros ???. apply round_step.
  - apply round_inv_start.
Qed.

(** As long as no call has timed out, the round gathers or is released. *)
Lemma round_inv_on_time sys :
  round_inv n V args sys → Forall (λ c, timed_out c = false) (calls sys) →
  gathering n V sys ∨ released n V sys.
Proof.
  intros [_ [Hto|?]] Hno; [|done].
  apply Exists_exists in Hto as (c & Hc & Hto).
  rewrite Forall_forall in Hno. by rewrite (Hno c Hc) in Hto.
Qed.

(** Whatever has returned has returned [V]. *)
Lemma round_returned sys (j : nat) c r :
  gathering n V sys ∨ released n V sys →
  calls sys !! j = Some c → call_phase c = Finished r → r = Ok V.
Proof.
  intros [(Hph & _)|(Hph & _)] Hj Hp.
  - destruct (Hph _ _ Hj) as [?|[?|?]]; congruence.
  - destruct (Hph _ _ Hj) as [Hin|?]; [|congruence].
    unfold inside in Hin. by rewrite Hp in Hin.
Qed.

(** Once every call has returned, the actor is idle. *)
Lemma round_drained sys :
  args_of <$> calls sys = args →
  gathering n V sys ∨ released n V sys →
  (∀ (j : nat) c, calls sys !! j = Some c → is_finished c = true) →
  _counter (actor sys) = 0 ∧ _world_size (actor sys) = 0.
Proof.
  intros Hargs Hinv Hfin. pose proof (args_calls_length _ Hargs) as Hlen.
  destruct Hinv as [(Hph & _)|(Hph & Hcnt & Hw0 & _)].
  - destruct (lookup_lt_is_Some_2 (calls sys) 0%nat) as [c Hc]; [lia|].
    pose proof (Hfin _ _ Hc) as Hf. unfold is_finished in Hf.
    destruct (Hph _ _ Hc) as [Hp|[Hp|Hp]]; by rewrite Hp in Hf.
  - assert (count inside (calls sys) = 0) as H0.
    { apply count_zero. intros j c Hj. pose proof (Hfin _ _ Hj) as Hf.
      unfold is_finished in Hf. unfold inside.
      by destruct (call_phase c). }
    split; [lia|]. apply Hw0. lia.
Qed.

(** Under a positive timeout and a positive warning interval, a round that
    gathers, or that is released with no call back in the wait, can be
    brought to its end by arrivals and wake-ups alone. *)
Lemma round_completes timeout_s warn_interval_s (k : nat) sys :
  expired timeout_s = false → expired warn_interval_s = false →
  configured timeout_s warn_interval_s sys →
  args_of <$> calls sys = args →
  gathering n V sys ∨
    released n V sys ∧ Forall (λ c, call_phase c ≠ Waiting) (calls sys) →
  measure sys < Z.of_nat k →
  ∃ evs sys',
    Forall (λ ev, no_timer ev = true) evs ∧
    run sys evs = Some sys' ∧
    length (calls sys') = n ∧
    Forall (λ c, call_phase c = Finished (Ok V)) (calls sys').
Proof.
  intros Hex Hnw. revert sys.
  induction k as [|k IH]; intros sys Hcfg Hargs Hinv Hk.
  { pose proof (measure_nonneg sys). lia. }
  pose proof (args_calls_length _ Hargs) as Hlen.
  assert (∀ ev sys1, no_timer ev = true → step sys ev = Some sys1 →
            measure sys1 < measure sys →
            gathering n V sys1 ∨
              released n V sys1 ∧
              Forall (λ c, call_phase c ≠ Waiting) (calls sys1) →
            ∃ evs sys', Forall (λ ev, no_timer ev = true) evs ∧
              run sys evs = Some sys' ∧ length (calls sys') = n ∧
              Forall (λ c, call_phase c = Finished (Ok V)) (calls sys'))
    as Hnext.
  { intros ev sys1 Hev Hs Hm Hinv1.
    destruct (IH sys1) as (evs & sys' & Hevs & Hrun & Hl & Hfin);
      [by eapply configured_step
      |by rewrite (step_args _ _ _ Hs) | done | lia |].
    exists (ev :: evs), sys'. split_and!; [by constructor| |done..].
    cbn. by rewrite Hs. }
  destruct Hinv as [Hg|[Hr Hnowait]].
  - pose proof Hg as (Hph & Hcnt & Hlt & _).
    destruct (count_lt_exists inside (calls sys)) as (j & c & Hj & Hin);
      [lia|].
    assert (call_phase c = Pending) as Hp.
    { unfold inside in Hin.
      destruct (Hph _ _ Hj) as [Hp|[Hp|Hp]]; [done|by rewrite Hp in Hin..]. }
    destruct (arrive_measure sys j c 0%float Hj Hp) as (sys1 & Hs & Hm).
    apply (Hnext (Arrive j 0%float) sys1); [done..|].
    destruct (arrive_gathering _ _ _ _ _ Hargs Hg Hj Hp Hs)
      as [[Hex' _]|?]; [|done].
    destruct Hcfg as (Ht & _). congruence.
  - pose proof Hr as (Hph & Hcnt & _).
    destruct (decide (count inside (calls sys) = 0)) as [H0|H0].
    + exists [], sys. split_and!; [done..|].
      apply Forall_lookup. intros j c Hj.
      pose proof (count_none _ _ H0 _ _ Hj) as Hin.
      destruct (Hph _ _ Hj) as [?|?]; [congruence|done].
    + pose proof (count_bounds inside (calls sys)).
      destruct (count_pos_exists inside (calls sys)) as (j & c & Hj & Hin);
        [lia|].
      assert (call_phase c = Notified) as Hp.
      { destruct Hcfg as (_ & _ & Hspin & _).
        pose proof (Hspin Hnw _ _ Hj) as Hns.
        pose proof (proj1 (Forall_lookup _ _) Hnowait _ _ Hj) as Hnwt.
        unfold inside in Hin. cbn beta in Hnwt. revert Hin Hns Hnwt.
        destruct (call_phase c); intros; congruence. }
      pose proof (wake_measure sys j c Hj Hp) as Hm.
      apply (Hnext (Wake j) _ eq_refl (wake_eq _ _ _ Hj Hp) Hm).
      right. split; [by apply wake_released|].
      unfold finish. cbn. apply Forall_insert; [done|]. done.
Qed.

End Round.

(** ** Calls that agree on the world size

    When every call declares the same positive world size [N], the counter
    counts the calls inside, stays below [N] between the stretches, and is
    zero exactly when the world size is zero.  Ranks are arbitrary and
    timeouts are allowed. *)

Section Agreeing.
Context {T : Type}.
Variable N : Z.
Hypothesis N_pos : 0 < N.
Implicit Types (sys : system T) (c : call T).

Lemma agreeing_step sys ev sys' :
  agreeing N sys → step sys ev = Some sys' → agreeing N sys'.
Proof.
  intros Hag Hs j c Hj.
  assert ((args_of <$> calls sys) !! j = Some (args_of c)) as Hj'.
  { rewrite <- (step_args _ _ _ Hs), list_lookup_fmap. by rewrite Hj. }
  rewrite list_lookup_fmap in Hj'.
  destruct (calls sys !! j) as [c0|] eqn:Hc0; [|done].
  injection Hj' as _ <- _. by apply (Hag j).
Qed.

Lemma counter_inv_leave sys (i : nat) c r :
  counter_inv N sys → calls sys !! i = Some c → inside c = true →
  counter_inv N (finish i c r (cleared (actor sys)) (calls sys) sys).
Proof.
  intros [Hcnt Hw] Hi Hin. unfold counter_inv, finish. cbn.
  rewrite (count_insert _ _ _ _ _ Hi), Hin. cbn.
  rewrite cleared_counter, cleared_world_size.
  pose proof (count_bounds inside (<[i:=set_phase (Finished r) c]> (calls sys)))
    as Hb.
  rewrite (count_insert _ _ _ _ _ Hi), Hin in Hb. cbn in Hb.
  split; [lia|]. case_bool_decide; [left|right]; lia.
Qed.

Lemma counter_inv_step sys ev sys' :
  agreeing N sys → counter_inv N sys → step sys ev = Some sys' →
  counter_inv N sys'.
Proof.
  intros Hag Hinv. pose proof Hinv as [Hcnt Hw].
  destruct ev as [i now|i|i now|i now|i now];
    try (intros [Ha [Hc|(c & Hi & Hp & Hc)]]%warn_calls;
         unfold counter_inv; rewrite Ha, Hc; [done|];
         rewrite inside_rewait; [done..|]; unfold inside; by rewrite Hp);
    cbn; destruct (calls sys !! i) as [c|] eqn:Hi; cbn; try done;
    destruct (call_phase c) eqn:Hp; try done;
    try (first [rewrite notified_eq|rewrite timed_out_eq|rewrite lock_lost_eq];
         intros [= <-]; apply counter_inv_leave; [done..|];
         unfold inside; by rewrite Hp).
  assert (inside c = false) as Hic by (unfold inside; by rewrite Hp).
  assert (notify_all (calls sys) !! i = Some c) as Hi'.
  { unfold notify_all. rewrite list_lookup_fmap, Hi. cbn. by rewrite Hp. }
  rewrite (Hag _ _ Hi), broadcast_from_rank_zero_eq.
  rewrite decide_False by (unfold mismatch; lia).
  cbn zeta. set (a' := entered _ _ _ _).
  assert (_world_size a' = N) as Hw'.
  { unfold a'. rewrite entered_world_size. case_bool_decide; lia. }
  assert (_counter a' = _counter (actor sys) + 1) as Hc'.
  { unfold a' in *. rewrite entered_counter, Hw'.
    rewrite bool_decide_true; lia. }
  assert (_counter (cleared a') = _counter (actor sys)) as Hcc.
  { rewrite cleared_counter. lia. }
  assert (_counter (actor sys) = 0 ∧ _world_size (cleared a') = 0 ∨
          0 < _counter (actor sys) < N ∧ _world_size (cleared a') = N)
    as Hwc.
  { rewrite cleared_world_size, Hw'. case_bool_decide; [left|right]; lia. }
  case_bool_decide as Hlast.
  { intros [= <-]. unfold counter_inv, finish. cbn.
    rewrite (count_insert _ _ _ _ _ Hi'), Hic, inside_notify_all. cbn.
    rewrite Hcc. split; [lia|done]. }
  destruct (expired (_timeout_s (actor sys))).
  { intros [= <-]. unfold counter_inv, finish. cbn.
    rewrite (count_insert _ _ _ _ _ Hi), Hic. cbn.
    rewrite Hcc. split; [lia|done]. }
  destruct (list_setitem _ _ _) as [times|];
    [destruct (expired (_warn_interval_s (actor sys)))|]; intros [= <-].
  - unfold counter_inv. cbn.
    rewrite (count_insert _ _ _ _ _ Hi), Hic. cbn. split; [lia|].
    right. lia.
  - unfold counter_inv. cbn.
    rewrite (count_insert _ _ _ _ _ Hi), Hic. cbn. split; [lia|].
    right. lia.
  - unfold counter_inv, finish. cbn.
    rewrite (count_insert _ _ _ _ _ Hi), Hic. cbn.
    rewrite Hcc. split; [lia|done].
Qed.

(** The bounds on the counter, for calls that agree on the world size. *)
Lemma counter_bounds_agreeing timeout_s warn_interval_s
    (args : list (Z * Z * option T)) evs sys :
  (∀ r w d, (r, w, d) ∈ args → w = N) →
  run (start timeout_s warn_interval_s args) evs = Some sys →
  0 ≤ _counter (actor sys) ≤ _world_size (actor sys) ∧
  (_world_size (actor sys) = 0 ↔ _counter (actor sys) = 0).
Proof.
  intros Hargs Hrun.
  assert (agreeing N sys ∧ counter_inv N sys) as [_ [_ Hw]]; [|lia].
  revert Hrun. apply (run_invariant (λ sys, agreeing N sys ∧ counter_inv N sys)).
  - intros s ev s' [Hag Hinv] Hs.
    split; [by eapply agreeing_step|by eapply counter_inv_step].
  - assert (∀ (j : nat) c,
              calls (start timeout_s warn_interval_s args) !! j = Some c →
              call_world_size c = N ∧ call_phase c = Pending) as Hst.
    { intros j c. cbn. rewrite list_lookup_fmap.
      destruct (args !! j) as [[[r w] d]|] eqn:Hj; cbn; [|done].
      intros [= <-]. cbn. split; [|done].
      eapply Hargs. by eapply list_elem_of_lookup_2. }
    split; [intros j c Hj; by apply (Hst j)|]. split; [|by left].
    symmetry. apply count_zero. intros j c Hj. unfold inside.
    by destruct (Hst j c Hj) as [_ ->].
Qed.

End Agreeing.

Section Broadcast.
Context {T : Type}.
Implicit Types (sys : system T) (c : call T) (args : list (Z * Z * option T)).

(** The three facts about a round of [n] calls, for the states the scheduler
    reaches in which no call has timed out. *)
Lemma round_run (n : nat) (V : option T) args timeout_s warn_interval_s
    evs sys :
  (0 < n)%nat →
  length args = n →
  (∀ (j : nat) r w d, args !! j = Some (r, w, d) →
     w = Z.of_nat n ∧ - Z.of_nat n ≤ r < Z.of_nat n ∧ (r = 0 → d = V)) →
  (∃ (j : nat) w d, args !! j = Some (0, w, d)) ∨ V = None →
  run (start timeout_s warn_interval_s args) evs = Some sys →
  Forall (λ c, timed_out c = false) (calls sys) →
  (∀ c r, c ∈ calls sys → call_phase c = Finished r → r = Ok V) ∧
  (Forall (λ c, is_finished c = true) (calls sys) →
   _counter (actor sys) = 0 ∧ _world_size (actor sys) = 0) ∧
  (positive timeout_s = true → positive warn_interval_s = true →
   on_course sys →
   ∃ evs' sys',
     Forall (λ ev, no_timer ev = true) evs' ∧
     run sys evs' = Some sys' ∧
     length (calls sys') = n ∧
     Forall (λ c, call_phase c = Finished (Ok V)) (calls sys')).
Proof.
  intros Hn Hlen Hround Hvalue Hrun Hno.
  assert (round_inv n V args sys) as Hinv
    by (eapply round_inv_run; eauto).
  assert (gathering n V sys ∨ released n V sys) as Hgr
    by (eapply round_inv_on_time; eauto).
  destruct Hinv as [Hargs _].
  split_and!.
  - intros c r [j Hj]%list_elem_of_lookup_1. eapply round_returned; eauto.
  - intros Hfin. eapply round_drained; eauto.
    by apply Forall_lookup.
  - intros Hex%positive_not_expired Hnw%positive_not_expired Hon.
    eapply (round_completes n V args)
      with (timeout_s := timeout_s) (warn_interval_s := warn_interval_s)
           (k := Z.to_nat (measure sys + 1));
      eauto; [by eapply configured_run| |].
    + destruct Hgr as [?|Hr]; [by left|right]. split; [done|].
      destruct Hon as [Hpend|?]; [|done].
      apply Exists_exists in Hpend as (c & [j Hj]%list_elem_of_lookup_1 & Hp).
      destruct Hr as (Hph & _). unfold is_pending in Hp.
      destruct (Hph _ _ Hj) as [Hin|Hf].
      * unfold inside in Hin. by destruct (call_phase c).
      * by rewrite Hf in Hp.
    + pose proof (measure_nonneg sys). lia.
Qed.


(** *** When no caller has rank 0 *)

Lemma returns_none_insert (cs : list (call T)) (i : nat) c' :
  (∀ (j : nat) c, cs !! j = Some c → returns_none c) →
  returns_none c' →
  ∀ (j : nat) c, <[i := c']> cs !! j = Some c → returns_none c.
Proof.
  intros Hcs Hc' j c [(-> & <- & _)|[_ Hj]]%list_lookup_insert_Some;
    [done|by eapply Hcs].
Qed.

Lemma returns_none_notify_all (cs : list (call T)) :
  (∀ (j : nat) c, cs !! j = Some c → returns_none c) →
  ∀ (j : nat) c, notify_all cs !! j = Some c → returns_none c.
Proof.
  intros Hcs j c [c0 [Hj [[_ ->]|[_ ->]]]]%notify_all_lookup;
    [|by eapply Hcs].
  destruct (Hcs _ _ Hj) as [Hr _]. by split.
Qed.

Lemma returns_none_set_phase c p :
  returns_none c → (∀ v, p = Finished (Ok v) → v = None) →
  returns_none (set_phase p c).
Proof. by intros [Hr _] Hp. Qed.

Lemma no_payload_step sys ev sys' :
  no_payload sys → step sys ev = Some sys' → no_payload sys'.
Proof.
  intros [Hrd Hcs].
  assert (_reduced_data (cleared (actor sys)) = None) as Hcl.
  { rewrite cleared_reduced_data. by case_bool_decide. }
  destruct ev as [i now|i|i now|i now|i now];
    try (intros [Ha [Hc|(c & Hi & Hp & Hc)]]%warn_calls;
         unfold no_payload; rewrite Ha, Hc; [done|];
         (split; [done|]); apply returns_none_insert; [done|];
         apply returns_none_set_phase; [by eapply Hcs|done]);
    cbn; destruct (calls sys !! i) as [c|] eqn:Hi; cbn; try done;
    destruct (call_phase c) eqn:Hp; try done;
    try (first [rewrite notified_eq|rewrite timed_out_eq|rewrite lock_lost_eq];
         intros [= <-]; (split; [done|]); cbn;
         apply returns_none_insert; [done|];
         apply returns_none_set_phase; [by eapply Hcs|];
         by intros v [= <-]).
  pose proof (Hcs _ _ Hi) as Hc. destruct (Hc) as [Hr _].
  rewrite broadcast_from_rank_zero_eq. case_decide as Hm.
  { intros [= <-]. split; [done|]. cbn.
    apply returns_none_insert; [done|]. by apply returns_none_set_phase. }
  cbn zeta. set (a' := entered _ _ _ _).
  assert (_reduced_data a' = None) as Hrd'.
  { unfold a'. rewrite entered_reduced_data. by rewrite bool_decide_false. }
  assert (_reduced_data (cleared a') = None) as Hcl'.
  { rewrite cleared_reduced_data. by case_bool_decide. }
  case_bool_decide.
  { intros [= <-]. split; [done|]. cbn.
    apply returns_none_insert; [by apply returns_none_notify_all|].
    apply returns_none_set_phase; [done|]. intros v [= <-]. done. }
  destruct (expired (_timeout_s (actor sys)));
    [|destruct (list_setitem _ _ _);
      [destruct (expired (_warn_interval_s (actor sys)))|]];
    intros [= <-]; (split; [done|]); cbn;
    (apply returns_none_insert; [done|]); by apply returns_none_set_phase.
Qed.


End Broadcast.

(** ** The scenarios, run *)



(** C2 (not met by the code): the call that fails with the world size
    [ValueError] does change the shared state.  The [finally] of the context
    manager runs [_clear_states] for a caller that was never counted: with
    one caller waiting, the counter drops from 1 to 0, and the payload and the
    world size of the round are reset while that caller still waits. *)
Theorem mismatch_resets_active_round :
  ∃ before after,
    run mismatch_scenario [Arrive 0 5] = Some before ∧
    step before (Arrive 1 6) = Some after ∧
    actor before =
      mkActor 1 10 (Some "hello") (Some 5%float :: replicate 9 None) 1800 30 ∧
    calls after !! 1%nat =
      Some (mkCall 1 11 (Some "world")
              (Finished (Raise (ValueError
                 "Expects all callers to provide the same world size.                 Got 11 and expected 10.")))) ∧
    actor after =
      mkActor 0 0 None (Some 5%float :: replicate 9 None) 1800 30 ∧
    calls after !! 0%nat = Some (mkCall 0 10 (Some "hello") Waiting).
Proof. eexists _, _. vm_compute. by split_and!. Qed.

(** What the reset costs: in a world of two, rank 0 waits, a call with
    another world size fails, and rank 1 then arrives.  Its arrival should
    release both; it starts a round of its own instead, and both wait. *)
Lemma mismatch_stalls_round :
  ∃ sys,
    run (start 1800 30
           [(0, 2, Some "hello"); (5, 3, None); (1, 2, Some "world")])
        [Arrive 0 5; Arrive 1 6; Arrive 2 7] = Some sys ∧
    call_phase <$> calls sys =
      [Waiting;
       Finished (Raise (ValueError
         "Expects all callers to provide the same world size.                 Got 3 and expected 2."));
       Waiting] ∧
    _counter (actor sys) = 1 ∧ _world_size (actor sys) = 2 ∧
    _reduced_data (actor sys) = None.
Proof. eexists. split; [by vm_compute|]. by split_and!. Qed.

(** C3 (not met by the code): after the mismatch above has emptied the round,
    the caller that was waiting leaves in its turn (here on its timeout) and
    the counter becomes -1 with a world size of 0. *)
Theorem counter_negative_after_mismatch :
  ∃ sys,
    run mismatch_scenario [Arrive 0 5; Arrive 1 6; Timeout 0 1805] = Some sys ∧
    _counter (actor sys) = -1 ∧
    _world_size (actor sys) = 0 ∧
    ¬ (0 ≤ _counter (actor sys) ≤ _world_size (actor sys)) ∧
    ¬ (_world_size (actor sys) = 0 ↔ _counter (actor sys) = 0).
Proof.
  eexists. split; [by vm_compute|]. cbn. split_and!; [done|done|lia|].
  intros [H _]. by specialize (H eq_refl).
Qed.

(** C5 (not met by the code): the snapshot of a timeout error can lack the
    arrival of the very call that times out.  In a world of two, rank 0
    arrives at 5.0 and its start time is recorded.  A call that declares a
    world of three fails on the world size and, through [_clear_states], ends
    the round under the waiting caller.  Rank 1 arrives at 7.0 and finds no
    round: it opens one, with a new list of start times.  When rank 0 times
    out at 1805.0, its error carries the timeout of 1800 seconds, maps rank 1
    to 1798.0 and maps rank 0, which has waited all the while, to [None]. *)
Theorem timeout_snapshot_loses_recorded_arrival :
  ∃ waiting reopened sys d,
    run reopened_scenario [Arrive 0 5] = Some waiting ∧
    _sync_start_times (actor waiting) = [Some 5%float; None] ∧
    run waiting [Arrive 1 6; Arrive 2 7] = Some reopened ∧
    call_phase <$> calls reopened =
      [Waiting;
       Finished (Raise (ValueError
         "Expects all callers to provide the same world size.                 Got 3 and expected 2."));
       Waiting] ∧
    _sync_start_times (actor reopened) = [None; Some 7%float] ∧
    step reopened (Timeout 0 1805) = Some sys ∧
    run reopened_scenario reopened_events = Some sys ∧
    calls sys !! 0%nat =
      Some (mkCall 0 2 (Some "hello")
              (Finished (Raise (BroadcastCollectiveTimeoutError d 1800)))) ∧
    d !! 0 = Some None ∧ d !! 1 = Some (Some 1798%float).
Proof.
  eexists _, _, _, _.
  split_and!; [by vm_compute|by vm_compute|by vm_compute|by vm_compute|
               by vm_compute|by vm_compute|by vm_compute|by vm_compute|
               by vm_compute|by vm_compute].
Qed.



(** The wake-up that is lost: rank 0 has returned the payload, rank 1 was
    released, and yet it logs its warnings to the end and times out. *)
Lemma lost_wakeup_ends_in_timeout :
  ∃ released sys d,
    run lost_wakeup_scenario [Arrive 0 1; Warn 0 2; Arrive 1 3] = Some released ∧
    call_phase <$> calls released =
      [Notified; Finished (Ok (Some "ckpt-42"))] ∧
    run released [Warn 0 3; Warn 0 4; Warn 0 5; Timeout 0 6] = Some sys ∧
    run lost_wakeup_scenario lost_wakeup_events = Some sys ∧
    call_phase <$> calls sys =
      [Finished (Raise (BroadcastCollectiveTimeoutError d 5));
       Finished (Ok (Some "ckpt-42"))] ∧
    d !! 0 = Some None ∧ d !! 1 = Some (Some 5%float) ∧
    length (warnings sys) = 4%nat ∧
    _counter (actor sys) = 0 ∧ _world_size (actor sys) = 0.
Proof.
  eexists _, _, _.
  split_and!; [by vm_compute|by vm_compute|by vm_compute|by vm_compute|
               by vm_compute|by vm_compute|by vm_compute|by vm_compute|
               by vm_compute|by vm_compute].
Qed.

(** Two timeouts handled in one pass of the loop: the first call ends with
    the structured error, the second with the [RuntimeError] of the lock;
    [_clear_states] has run for both. *)
Lemma timeouts_in_one_pass :
  ∃ (sys : system nat) d,
    run (start 5 1 [(1, 3, None); (7, 3, None); (2, 3, None)])
      stalled_events_one_pass = Some sys ∧
    call_phase <$> calls sys =
      [Finished (Raise (BroadcastCollectiveTimeoutError d 5));
       Finished (Raise IndexError);
       Finished (Raise (RuntimeError "Lock is not acquired."))] ∧
    _counter (actor sys) = 0 ∧ _world_size (actor sys) = 0.
Proof. eexists _, _. split_and!; by vm_compute. Qed.

(** A warning interval of zero: the caller records its arrival, never
    releases the lock, logs a warning at every turn and times out. *)
Lemma zero_warn_interval_spins :
  ∃ (spinning sys : system nat) d,
    run (start 5 0 [(0, 2, Some 7%nat); (1, 2, None)]) [Arrive 0 1]
      = Some spinning ∧
    call_phase <$> calls spinning = [Spinning; Pending] ∧
    _sync_start_times (actor spinning) = [Some 1%float; None] ∧
    run spinning [Warn 0 1; Warn 0 1; Warn 0 2; Timeout 0 6] = Some sys ∧
    call_phase <$> calls sys =
      [Finished (Raise (BroadcastCollectiveTimeoutError d 5)); Pending] ∧
    d !! 0 = Some (Some 5%float) ∧ d !! 1 = Some None ∧
    length (warnings sys) = 3%nat.
Proof.
  eexists _, _, _.
  split_and!; [by vm_compute|by vm_compute|by vm_compute|by vm_compute|
               by vm_compute|by vm_compute|by vm_compute|by vm_compute].
Qed.

(** A timeout of zero: the first caller of a world of two ends at once with
    the timeout error; no start time is recorded, and the actor is idle
    again. *)
Lemma zero_timeout_raises_at_arrival :
  ∃ (sys : system nat) d,
    run (start 0 1 [(0, 2, Some 7%nat)]) [Arrive 0 1] = Some sys ∧
    call_phase <$> calls sys =
      [Finished (Raise (BroadcastCollectiveTimeoutError d 0))] ∧
    d !! 0 = Some None ∧ d !! 1 = Some None ∧
    actor sys = mkActor 0 0 None [None; None] 0 1.
Proof. eexists _, _. split_and!; by vm_compute. Qed.

(** * Further properties of the actor *)

Section Stalls.
Context {T : Type}.
Implicit Types (a : SynchronizationActor T) (sys : system T) (c : call T).

(** X1: a call in the wait whose [timeout_s] has passed ends in one of two
    ways.  When it takes the lock back, it ends with
    [BroadcastCollectiveTimeoutError] carrying the actor's [timeout_s] and a
    dictionary whose keys are exactly the indices of [_sync_start_times]; an
    index with a recorded start other than [0.0] maps to the time elapsed
    since, any other index to [None].  When it leaves before the lock is
    taken back, which a call that spins never does, the [async with] block
    raises [RuntimeError] with the message of the lock in place of that
    error.  Either way [_clear_states] has run: the counter has dropped by
    one, the start times and the other calls are left as they were. *)
Theorem timeout_raises_snapshot sys (i : nat) c now :
  calls sys !! i = Some c →
  inside c = true →
  ∃ sys' d,
    step sys (Timeout i now) = Some sys' ∧
    calls sys' !! i =
      Some (set_phase
              (Finished (Raise (BroadcastCollectiveTimeoutError d
                                  (_timeout_s (actor sys))))) c) ∧
    (∀ k : Z, is_Some (d !! k) ↔
       0 ≤ k < Z.of_nat (length (_sync_start_times (actor sys)))) ∧
    (∀ (k : nat) t, _sync_start_times (actor sys) !! k = Some (Some t) →
       d !! Z.of_nat k =
       Some (if float_truthy t then Some (PrimFloat.sub now t) else None)) ∧
    (∀ k : nat, _sync_start_times (actor sys) !! k = Some None →
       d !! Z.of_nat k = Some None) ∧
    step sys (TimeoutRace i now) =
      (if is_spinning c then None
       else Some (mkSystem (actor sys')
                    (<[i := set_phase
                              (Finished (Raise (RuntimeError
                                                  "Lock is not acquired.")))
                              c]> (calls sys))
                    (warnings sys))) ∧
    actor sys' = (_clear_states (actor sys)).2 ∧
    _counter (actor sys') = _counter (actor sys) - 1 ∧
    _sync_start_times (actor sys') = _sync_start_times (actor sys) ∧
    (∀ j : nat, j ≠ i → calls sys' !! j = calls sys !! j).
Proof.
  intros Hi Hp.
  destruct (timeout_error_snapshot sys i c now Hi Hp) as (d & Hs & Hd & Hneg).
  eexists _, d. split; [exact Hs|]. unfold finish. cbn. split_and!.
  - apply list_lookup_insert_eq. by eapply lookup_lt_Some.
  - intros k. destruct (decide (0 ≤ k)) as [Hk|Hk].
    + assert (∃ n : nat, k = Z.of_nat n) as [n ->]
        by (exists (Z.to_nat k); lia).
      rewrite Hd, fmap_is_Some, lookup_lt_is_Some. lia.
    + rewrite Hneg by lia. split; [by intros [? ?]|lia].
  - intros k t Hk. by rewrite Hd, Hk.
  - intros k Hk. by rewrite Hd, Hk.
  - rewrite Hi. cbn. unfold inside in Hp. unfold is_spinning.
    destruct (call_phase c); try done; by rewrite lock_lost_eq.
  - by rewrite _clear_states_eq.
  - apply cleared_counter.
  - apply cleared_times.
  - intros j Hj. by apply list_lookup_insert_ne.
Qed.

(** X2: a waiting call whose warning interval has passed logs one warning
    and nothing else changes.  The warning names the world size and the
    interval of the actor, and lists exactly the ranks whose recorded start
    is not [0.0], each with the time elapsed since. *)
Theorem warning_lists_arrived_ranks sys (i : nat) c now :
  calls sys !! i = Some c →
  call_phase c = Waiting →
  ∃ w,
    step sys (Warn i now) =
      Some (mkSystem (actor sys) (calls sys) (warnings sys ++ [w])) ∧
    warning_world_size w = _world_size (actor sys) ∧
    warning_warn_interval_s w = _warn_interval_s (actor sys) ∧
    ∀ (k : Z) e,
      time_elapsed_dict w !! k = Some e ↔
      0 ≤ k ∧
      ∃ t, _sync_start_times (actor sys) !! Z.to_nat k = Some (Some t) ∧
           float_truthy t = true ∧ e = PrimFloat.sub now t.
Proof.
  intros Hi Hp. cbn. rewrite Hi. cbn. rewrite Hp.
  eexists. split; [done|]. cbn. split_and!; [done|done|].
  intros k e. rewrite lookup_omap_Some. setoid_rewrite lookup_map_seqZ_Some.
  rewrite Z.sub_0_r. setoid_rewrite list_lookup_fmap.
  split.
  - intros (o & Ho & Hk & Hl). cbn in Ho. subst o. split; [done|].
    destruct (_sync_start_times (actor sys) !! Z.to_nat k) as [[t|]|];
      cbn in Hl; try done.
    exists t. destruct (float_truthy t); by simplify_eq.
  - intros (Hk & t & Ht & Htr & ->). exists (Some (PrimFloat.sub now t)).
    split; [done|]. split; [done|]. rewrite Ht. cbn. by rewrite Htr.
Qed.

(** X3: in every state the scheduler reaches, when a round is active the
    list of start times has one entry for each rank of the round. *)
Theorem start_times_cover_round timeout_s warn_interval_s
    (args : list (Z * Z * option T)) evs sys :
  run (start timeout_s warn_interval_s args) evs = Some sys →
  _world_size (actor sys) ≠ 0 →
  length (_sync_start_times (actor sys)) = Z.to_nat (_world_size (actor sys)).
Proof. intros Hrun. by apply (times_ok_run _ _ _ _ _ Hrun). Qed.

End Stalls.

(** ** Calls that agree on the world size, with timeouts and index errors *)

Section AgreeingRuns.
Context {T : Type}.
Variable N : Z.
Hypothesis N_pos : 0 < N.
Implicit Types (a : SynchronizationActor T) (sys : system T) (c : call T).

Lemma agreeing_run timeout_s warn_interval_s
    (args : list (Z * Z * option T)) evs sys :
  (∀ r w d, (r, w, d) ∈ args → w = N) →
  run (start timeout_s warn_interval_s args) evs = Some sys →
  agreeing N sys ∧ counter_inv N sys ∧
  (_counter (actor sys) = 0 → _reduced_data (actor sys) = None).
Proof.
  intros Hargs.
  apply (run_invariant
           (λ sys, agreeing N sys ∧ counter_inv N sys ∧
                   (_counter (actor sys) = 0 →
                    _reduced_data (actor sys) = None))).
  - clear sys. intros sys ev sys' (Hag & Hinv & Hrd) Hs.
    split; [by eapply agreeing_step|].
    split; [by eapply counter_inv_step|].
    assert (∀ a, _counter (cleared a) = 0 → _reduced_data (cleared a) = None)
      as Hcl.
    { intros a. rewrite cleared_counter, cleared_reduced_data.
      intros ?. by rewrite bool_decide_true. }
    revert Hs. destruct Hinv as [Hcnt Hw].
    destruct ev as [i now|i|i now|i now|i now];
      try (intros [Ha _]%warn_calls; by rewrite Ha);
      cbn; destruct (calls sys !! i) as [c|] eqn:Hi; cbn; try done;
      destruct (call_phase c) eqn:Hp; try done;
      try (first [rewrite notified_eq|rewrite timed_out_eq
                 |rewrite lock_lost_eq]; intros [= <-]; by apply Hcl).
    rewrite (Hag _ _ Hi), broadcast_from_rank_zero_eq.
    rewrite decide_False by (unfold mismatch; lia).
    cbn zeta. set (a' := entered _ _ _ _).
    assert (_counter a' = _counter (actor sys) + 1) as Hc'.
    { unfold a'. rewrite entered_counter, entered_world_size.
      rewrite bool_decide_true; [done|]. case_bool_decide; lia. }
    case_bool_decide; [intros [= <-]; apply Hcl|].
    destruct (expired (_timeout_s (actor sys))); [intros [= <-]; apply Hcl|].
    destruct (list_setitem _ _ _);
      [destruct (expired (_warn_interval_s (actor sys)))|];
      intros [= <-]; [cbn; lia|cbn; lia|apply Hcl].
  - assert (∀ (j : nat) c,
              calls (start timeout_s warn_interval_s args) !! j = Some c →
              call_world_size c = N ∧ call_phase c = Pending) as Hst.
    { intros j c. cbn. rewrite list_lookup_fmap.
      destruct (args !! j) as [[[r w] d]|] eqn:Hj; cbn; [|done].
      intros [= <-]. cbn. split; [|done].
      eapply Hargs. by eapply list_elem_of_lookup_2. }
    split; [intros j c Hj; by apply (Hst j)|]. split; [|done].
    split; [|by left].
    symmetry. apply count_zero. intros j c Hj. unfold inside.
    by destruct (Hst j c Hj) as [_ ->].
Qed.

(** X4: when every call declares the same positive world size [N], then in
    every state the scheduler reaches, with any ranks, duplicates, index
    errors and timeouts, the counter is the number of calls that have entered
    and not yet left; it stays below [N], is at most the world size, and is
    zero exactly when the world size is zero, which otherwise is [N]. *)
Theorem counter_counts_calls_inside timeout_s warn_interval_s
    (args : list (Z * Z * option T)) evs sys :
  (∀ r w d, (r, w, d) ∈ args → w = N) →
  run (start timeout_s warn_interval_s args) evs = Some sys →
  _counter (actor sys) = count inside (calls sys) ∧
  0 ≤ _counter (actor sys) ≤ _world_size (actor sys) ∧
  _counter (actor sys) < N ∧
  (_world_size (actor sys) = 0 ↔ _counter (actor sys) = 0) ∧
  (_world_size (actor sys) ≠ 0 → _world_size (actor sys) = N).
Proof.
  intros Hargs Hrun.
  destruct (agreeing_run _ _ _ _ _ Hargs Hrun) as (_ & [Hcnt Hw] & _).
  split; [done|]. lia.
Qed.

(** X5: under the same condition the payload is set only while some call is
    inside, and once every call has ended, by a return, an index error or a
    timeout, the actor is idle again: counter and world size are zero and the
    payload is [None]. *)
Theorem payload_only_while_inside timeout_s warn_interval_s
    (args : list (Z * Z * option T)) evs sys :
  (∀ r w d, (r, w, d) ∈ args → w = N) →
  run (start timeout_s warn_interval_s args) evs = Some sys →
  (_reduced_data (actor sys) ≠ None → 0 < _counter (actor sys)) ∧
  (Forall (λ c, is_finished c = true) (calls sys) →
   _counter (actor sys) = 0 ∧ _world_size (actor sys) = 0 ∧
   _reduced_data (actor sys) = None).
Proof.
  intros Hargs Hrun.
  destruct (agreeing_run _ _ _ _ _ Hargs Hrun) as (_ & [Hcnt Hw] & Hrd).
  split.
  - intros Hne. destruct (decide (_counter (actor sys) = 0)); [|lia].
    by destruct Hne; apply Hrd.
  - intros Hfin.
    assert (count inside (calls sys) = 0) as H0.
    { apply count_zero. intros j c Hj.
      pose proof (proj1 (Forall_lookup _ _) Hfin _ _ Hj) as Hf.
      unfold is_finished in Hf. unfold inside. by destruct (call_phase c). }
    split_and!; [lia|lia|apply Hrd; lia].
Qed.

End AgreeingRuns.

Lemma counter_counts_calls_inside_witness :
  ∃ sys : system nat,
    run (start 5 1 [(1, 3, None); (7, 3, None); (2, 3, None)]) stalled_events
      = Some sys ∧
    _counter (actor sys) = count inside (calls sys) ∧
    0 ≤ _counter (actor sys) ≤ _world_size (actor sys) ∧
    _counter (actor sys) < 3 ∧
    (_world_size (actor sys) = 0 ↔ _counter (actor sys) = 0) ∧
    (_world_size (actor sys) ≠ 0 → _world_size (actor sys) = 3).
Proof.
  eexists. split; [by vm_compute|].
  apply (counter_counts_calls_inside 3 ltac:(lia) 5 1
           [(1, 3, None); (7, 3, None); (2, 3, None)] stalled_events).
  - intros r w d Hin.
    repeat (apply elem_of_cons in Hin as [[= -> -> ->]|Hin]);
      [done|done|done|]. by apply elem_of_nil in Hin.
  - by vm_compute.
Defined.

Lemma payload_only_while_inside_witness :
  ∃ sys : system nat,
    run (start 5 1 [(1, 3, None); (7, 3, None); (2, 3, None)]) stalled_events
      = Some sys ∧
    (_reduced_data (actor sys) ≠ None → 0 < _counter (actor sys)) ∧
    (Forall (λ c, is_finished c = true) (calls sys) →
     _counter (actor sys) = 0 ∧ _world_size (actor sys) = 0 ∧
     _reduced_data (actor sys) = None).
Proof.
  eexists. split; [by vm_compute|].
  apply (payload_only_while_inside 3 ltac:(lia) 5 1
           [(1, 3, None); (7, 3, None); (2, 3, None)] stalled_events).
  - intros r w d Hin.
    repeat (apply elem_of_cons in Hin as [[= -> -> ->]|Hin]);
      [done|done|done|]. by apply elem_of_nil in Hin.
  - by vm_compute.
Defined.

(** Witnesses for the stalls. *)
Lemma timeout_raises_snapshot_witness :
  ∃ (sys' : system nat) d,
    step (mkSystem (mkActor 1 2 (Some 7%nat) [Some 3%float; None] 1 1)
            [mkCall 0 2 (Some 7%nat) Waiting] [])
         (Timeout 0 4) = Some sys' ∧
    calls sys' !! 0%nat =
      Some (mkCall 0 2 (Some 7%nat)
              (Finished (Raise (BroadcastCollectiveTimeoutError d 1)))) ∧
    d !! 0 = Some (Some 1%float) ∧ d !! 1 = Some None ∧
    step (mkSystem (mkActor 1 2 (Some 7%nat) [Some 3%float; None] 1 1)
            [mkCall 0 2 (Some 7%nat) Waiting] [])
         (TimeoutRace 0 4) =
      Some (mkSystem (actor sys')
              [mkCall 0 2 (Some 7%nat)
                 (Finished (Raise (RuntimeError "Lock is not acquired.")))]
              []) ∧
    _counter (actor sys') = 0.
Proof.
  destruct (timeout_raises_snapshot
              (mkSystem (mkActor 1 2 (Some 7%nat) [Some 3%float; None] 1 1)
                 [mkCall 0 2 (Some 7%nat) Waiting] [])
              0%nat (mkCall 0 2 (Some 7%nat) Waiting) 4 eq_refl eq_refl)
    as (sys' & d & Hs & Hc & _ & Hsome & Hnone & Hrace & _ & Hcnt & _).
  exists sys', d. split_and!; [done|done| | |done|done].
  - apply (Hsome 0%nat 3%float eq_refl).
  - apply (Hnone 1%nat eq_refl).
Defined.

Lemma warning_lists_arrived_ranks_witness :
  ∃ w : warning,
    step (mkSystem (mkActor 1 2 (Some 7%nat) [Some 3%float; None] 5 1)
            [mkCall 0 2 (Some 7%nat) Waiting] [])
         (Warn 0 4) =
      Some (mkSystem (mkActor 1 2 (Some 7%nat) [Some 3%float; None] 5 1)
              [mkCall 0 2 (Some 7%nat) Waiting] [w]) ∧
    warning_world_size w = 2 ∧
    time_elapsed_dict w !! 0 = Some 1%float ∧
    time_elapsed_dict w !! 1 = None.
Proof.
  destruct (warning_lists_arrived_ranks
              (mkSystem (mkActor 1 2 (Some 7%nat) [Some 3%float; None] 5 1)
                 [mkCall 0 2 (Some 7%nat) Waiting] [])
              0%nat (mkCall 0 2 (Some 7%nat) Waiting) 4 eq_refl eq_refl)
    as (w & Hs & Hw & _ & Hd).
  exists w. split_and!; [done|done| |].
  - apply Hd. split; [done|]. by exists 3%float.
  - destruct (time_elapsed_dict w !! 1) as [e|] eqn:He; [|done].
    apply Hd in He as (_ & t & Ht & _). done.
Defined.

Lemma start_times_cover_round_witness :
  length (_sync_start_times
            (mkActor 1 3 (None : option nat)
               [None; Some 1%float; None] 5 1)) = 3%nat.
Proof.
  apply (start_times_cover_round 5 1
           [(1, 3, None); (7, 3, None); (2, 3, None)] [Arrive 0 1]
           (mkSystem (mkActor 1 3 None [None; Some 1%float; None] 5 1)
              [mkCall 1 3 None Waiting; mkCall 7 3 None Pending;
               mkCall 2 3 None Pending] []));
    by vm_compute.
Defined.

(** ** Single arrivals *)

Section Arrivals.
Context {T : Type}.
Implicit Types (a : SynchronizationActor T) (sys : system T) (c : call T).

(** Entering an active round whose world size the caller shares and which is
    not yet full. *)
Lemma entered_active world_rank data a :
  _world_size a ≠ 0 → _counter a < _world_size a →
  entered world_rank (_world_size a) data a =
  set_counter (_counter a + 1)
    (if bool_decide (world_rank = 0) then set_reduced_data data a else a).
Proof.
  intros Hw Hc. unfold entered.
  rewrite (bool_decide_false (_world_size a = 0)) by done.
  cbn zeta. destruct (bool_decide (world_rank = 0)); cbn;
    by rewrite bool_decide_true.
Qed.

(** The arrival that completes an active round. *)
Lemma completing_arrival sys (i : nat) c now :
  calls sys !! i = Some c →
  call_phase c = Pending →
  _world_size (actor sys) ≠ 0 →
  call_world_size c = _world_size (actor sys) →
  _counter (actor sys) + 1 = _world_size (actor sys) →
  ∃ sys',
    step sys (Arrive i now) = Some sys' ∧
    calls sys' !! i =
      Some (set_phase
              (Finished (Ok (if bool_decide (call_rank c = 0)
                             then call_data c
                             else _reduced_data (actor sys)))) c) ∧
    (∀ (j : nat) c', j ≠ i → calls sys !! j = Some c' →
       calls sys' !! j =
       Some (match call_phase c' with
             | Waiting => set_phase Notified c'
             | _ => c'
             end)) ∧
    _counter (actor sys') = _counter (actor sys) ∧
    _sync_start_times (actor sys') = _sync_start_times (actor sys).
Proof.
  intros Hi Hp Hw Hws Hc. cbn. rewrite Hi. cbn. rewrite Hp, Hws.
  rewrite broadcast_from_rank_zero_eq.
  rewrite decide_False by (unfold mismatch; tauto). cbn zeta.
  rewrite entered_active by (done || lia). cbn.
  assert (_world_size (if bool_decide (call_rank c = 0)
                       then set_reduced_data (call_data c) (actor sys)
                       else actor sys) = _world_size (actor sys)) as ->
    by by case_bool_decide.
  rewrite bool_decide_true by lia.
  eexists. split; [done|]. unfold finish. cbn. split_and!.
  - rewrite list_lookup_insert_eq; [by case_bool_decide|].
    unfold notify_all. rewrite length_fmap. by eapply lookup_lt_Some.
  - intros j c' Hj Hc'. rewrite list_lookup_insert_ne by done.
    unfold notify_all. by rewrite list_lookup_fmap, Hc'.
  - rewrite cleared_counter. cbn. lia.
  - rewrite cleared_times. cbn. by case_bool_decide.
Qed.

(** X6: the call that completes an active round returns whatever its rank
    is, in range or not: the rank is only compared with zero, no start time
    is recorded for it, and every waiting call is notified.  It returns its
    own data if its rank is 0 and the stored payload otherwise, and leaves
    the counter as it found it. *)
Theorem completing_arrival_ignores_rank sys (i : nat) c now :
  calls sys !! i = Some c →
  call_phase c = Pending →
  _world_size (actor sys) ≠ 0 →
  call_world_size c = _world_size (actor sys) →
  _counter (actor sys) + 1 = _world_size (actor sys) →
  ∃ sys',
    step sys (Arrive i now) = Some sys' ∧
    calls sys' !! i =
      Some (set_phase
              (Finished (Ok (if bool_decide (call_rank c = 0)
                             then call_data c
                             else _reduced_data (actor sys)))) c) ∧
    (∀ (j : nat) c', j ≠ i → calls sys !! j = Some c' →
       calls sys' !! j =
       Some (match call_phase c' with
             | Waiting => set_phase Notified c'
             | _ => c'
             end)) ∧
    _counter (actor sys') = _counter (actor sys) ∧
    _sync_start_times (actor sys') = _sync_start_times (actor sys).
Proof. apply completing_arrival. Qed.

(** The index that Python resolves a rank to in a list of [n] entries. *)
Lemma py_index_resolved {A} (l : list A) (i : Z) :
  - Z.of_nat (length l) ≤ i < Z.of_nat (length l) →
  py_index l i =
  Some (Z.to_nat (if bool_decide (0 ≤ i) then i
                  else i + Z.of_nat (length l))).
Proof.
  intros Hi. unfold py_index. cbn zeta.
  destruct (decide (0 ≤ i)).
  - by rewrite (bool_decide_true (0 ≤ i < _)), (bool_decide_true (0 ≤ i))
      by lia.
  - rewrite (bool_decide_false (0 ≤ i < _)), (bool_decide_false (0 ≤ i))
      by lia.
    by rewrite bool_decide_true by lia.
Qed.

(** X7: under a positive timeout (the test [timeout_s <= 0] fails), in a
    state the scheduler reaches, a call that joins an active round without
    completing it, with a rank that indexes the round (from the front, or
    from the back when negative), is left in the wait: on the condition, or,
    when the warning interval is not positive, spinning with the lock held.
    It has stored the clock reading at its index of [_sync_start_times] and
    changed no other entry; the counter has grown by one, the world size is
    unchanged, and the payload is its data if its rank is 0 and as before
    otherwise. *)
Theorem waiting_arrival_records_start timeout_s warn_interval_s
    (args : list (Z * Z * option T)) evs sys (i : nat) c now :
  expired timeout_s = false →
  run (start timeout_s warn_interval_s args) evs = Some sys →
  calls sys !! i = Some c →
  call_phase c = Pending →
  0 < _world_size (actor sys) →
  call_world_size c = _world_size (actor sys) →
  _counter (actor sys) + 1 < _world_size (actor sys) →
  - _world_size (actor sys) ≤ call_rank c < _world_size (actor sys) →
  let k := Z.to_nat (if bool_decide (0 ≤ call_rank c) then call_rank c
                     else call_rank c + _world_size (actor sys)) in
  ∃ sys',
    step sys (Arrive i now) = Some sys' ∧
    calls sys' !! i =
      Some (set_phase (if expired warn_interval_s then Spinning else Waiting)
              c) ∧
    _sync_start_times (actor sys') !! k = Some (Some now) ∧
    (∀ j : nat, j ≠ k →
       _sync_start_times (actor sys') !! j =
       _sync_start_times (actor sys) !! j) ∧
    _counter (actor sys') = _counter (actor sys) + 1 ∧
    _world_size (actor sys') = _world_size (actor sys) ∧
    _reduced_data (actor sys') =
      (if bool_decide (call_rank c = 0) then call_data c
       else _reduced_data (actor sys)).
Proof.
  intros Hex Hrun Hi Hp Hw Hws Hc Hr k.
  pose proof (times_ok_run _ _ _ _ _ Hrun) as Hok.
  destruct (configured_run _ _ _ _ _ Hrun) as (Ht & Hwi & _).
  assert (length (_sync_start_times (actor sys)) =
          Z.to_nat (_world_size (actor sys))) as Hlen by (apply Hok; lia).
  cbn. rewrite Hi. cbn. rewrite Hp, Hws.
  rewrite broadcast_from_rank_zero_eq, Ht, Hex, Hwi.
  rewrite decide_False by (unfold mismatch; tauto). cbn zeta.
  rewrite entered_active by lia. cbn.
  assert (∀ (b : bool) (x : SynchronizationActor T),
            _world_size (if b then set_reduced_data (call_data c) x else x)
            = _world_size x) as Hws' by (by intros []).
  assert (∀ (b : bool) (x : SynchronizationActor T),
            _sync_start_times
              (if b then set_reduced_data (call_data c) x else x)
            = _sync_start_times x) as Hts' by (by intros []).
  rewrite Hws', Hts'. rewrite bool_decide_false by lia.
  unfold list_setitem. rewrite py_index_resolved by lia.
  rewrite Hlen, Z2Nat.id by lia. fold k. cbn.
  destruct (expired warn_interval_s);
    (eexists; split; [done|]; cbn; split_and!;
     [ apply list_lookup_insert_eq; by eapply lookup_lt_Some
     | apply list_lookup_insert_eq; unfold k; case_bool_decide; lia
     | intros j Hj; by apply list_lookup_insert_ne
     | done
     | apply Hws'
     | by case_bool_decide ]).
Qed.

(** X8: on an idle actor (counter and world size zero) with a positive
    timeout, the first call of a round of [N >= 2] with a rank that indexes
    the round opens it: the world size becomes [N], the start times are [N]
    entries, all [None] but the caller's own, whatever they were before, the
    counter is one, and the caller is in the wait (spinning when the warning
    interval is not positive). *)
Theorem first_arrival_opens_round sys (i : nat) c now :
  expired (_timeout_s (actor sys)) = false →
  calls sys !! i = Some c →
  call_phase c = Pending →
  _counter (actor sys) = 0 →
  _world_size (actor sys) = 0 →
  2 ≤ call_world_size c →
  - call_world_size c ≤ call_rank c < call_world_size c →
  let k := Z.to_nat (if bool_decide (0 ≤ call_rank c) then call_rank c
                     else call_rank c + call_world_size c) in
  ∃ sys',
    step sys (Arrive i now) = Some sys' ∧
    calls sys' !! i =
      Some (set_phase (if expired (_warn_interval_s (actor sys))
                       then Spinning else Waiting) c) ∧
    _world_size (actor sys') = call_world_size c ∧
    _counter (actor sys') = 1 ∧
    _sync_start_times (actor sys') =
      <[k := Some now]> (replicate (Z.to_nat (call_world_size c)) None) ∧
    _reduced_data (actor sys') =
      (if bool_decide (call_rank c = 0) then call_data c
       else _reduced_data (actor sys)).
Proof.
  intros Hex Hi Hp Hc Hw HN Hr k.
  cbn. rewrite Hi. cbn. rewrite Hp.
  rewrite broadcast_from_rank_zero_eq, Hex.
  rewrite decide_False by (unfold mismatch; tauto). cbn zeta.
  set (a' := entered _ _ _ _).
  assert (_world_size a' = call_world_size c) as Hw'.
  { unfold a'. rewrite entered_world_size. by rewrite bool_decide_true. }
  assert (_counter a' = 1) as Hc'.
  { unfold a'. rewrite entered_counter. fold a'. rewrite Hw', Hc.
    by rewrite bool_decide_true by lia. }
  assert (_sync_start_times a' =
          replicate (Z.to_nat (call_world_size c)) None) as Ht'.
  { unfold a'. rewrite entered_sync_start_times.
    by rewrite bool_decide_true. }
  rewrite Hw', Hc', Ht'. rewrite bool_decide_false by lia.
  unfold list_setitem.
  rewrite py_index_resolved by (rewrite length_replicate; lia).
  rewrite length_replicate, Z2Nat.id by lia. fold k. cbn.
  destruct (expired (_warn_interval_s (actor sys)));
    (eexists; split; [done|]; cbn; split_and!; try done;
     [ apply list_lookup_insert_eq; by eapply lookup_lt_Some
     | unfold a'; by rewrite entered_reduced_data ]).
Qed.

(** X9: between the release of a round and the return of its last caller, a
    further call of rank 0 with the same world size is taken for the last
    arrival of that round: it returns its own data at once, and a caller of
    the earlier round that wakes after it returns that data too, not the
    payload it was released with. *)
Theorem late_rank_zero_overwrites_payload sys (i j : nat) c c' now :
  calls sys !! i = Some c →
  call_phase c = Pending →
  call_rank c = 0 →
  calls sys !! j = Some c' →
  call_phase c' = Notified →
  _world_size (actor sys) ≠ 0 →
  call_world_size c = _world_size (actor sys) →
  _counter (actor sys) + 1 = _world_size (actor sys) →
  _counter (actor sys) ≠ 0 →
  ∃ sys1 sys2,
    step sys (Arrive i now) = Some sys1 ∧
    calls sys1 !! i = Some (set_phase (Finished (Ok (call_data c))) c) ∧
    step sys1 (Wake j) = Some sys2 ∧
    calls sys2 !! j = Some (set_phase (Finished (Ok (call_data c))) c').
Proof.
  intros Hi Hp Hr Hj Hp' Hw Hws Hc Hc0.
  assert (i ≠ j) as Hij by (intros ->; congruence).
  destruct (completing_arrival sys i c now Hi Hp Hw Hws Hc)
    as (sys1 & Hs1 & Hi1 & Hothers & Hc1 & _).
  rewrite bool_decide_true in Hi1 by done.
  pose proof (Hothers j c' (not_eq_sym Hij) Hj) as Hj1. rewrite Hp' in Hj1.
  assert (_reduced_data (actor sys1) = call_data c) as Hrd.
  { revert Hs1. cbn. rewrite Hi. cbn. rewrite Hp, Hws.
    rewrite broadcast_from_rank_zero_eq.
    rewrite decide_False by (unfold mismatch; tauto). cbn zeta.
    rewrite entered_active by (done || lia). rewrite Hr.
    rewrite (bool_decide_true (0 = 0)) by done. cbn.
    rewrite bool_decide_true by lia. intros [= <-]. cbn.
    rewrite cleared_reduced_data. cbn. by rewrite bool_decide_false by lia. }
  exists sys1. eexists. split; [done|]. split; [done|].
  cbn. rewrite Hj1. cbn. rewrite Hp', notified_eq, Hrd. split; [done|].
  unfold finish. cbn. apply list_lookup_insert_eq. by eapply lookup_lt_Some.
Qed.

(** X10: in a state the scheduler reaches, with at least one call inside an
    active round, a further call with the round's world size and a rank
    outside the round (too large, or too far below zero), which is not the
    completing one, ends with [IndexError] and leaves the actor exactly as
    it was; the other calls are not touched. *)
Theorem index_error_leaves_round_intact timeout_s warn_interval_s
    (args : list (Z * Z * option T)) evs sys (i : nat) c now :
  run (start timeout_s warn_interval_s args) evs = Some sys →
  calls sys !! i = Some c →
  call_phase c = Pending →
  0 < _counter (actor sys) →
  call_world_size c = _world_size (actor sys) →
  _counter (actor sys) + 1 < _world_size (actor sys) →
  _world_size (actor sys) ≤ call_rank c ∨
  call_rank c < - _world_size (actor sys) →
  ∃ sys',
    step sys (Arrive i now) = Some sys' ∧
    calls sys' !! i = Some (set_phase (Finished (Raise IndexError)) c) ∧
    actor sys' = actor sys ∧
    (∀ j : nat, j ≠ i → calls sys' !! j = calls sys !! j).
Proof.
  intros Hrun Hi Hp Hc0 Hws Hc Hr.
  pose proof (times_ok_run _ _ _ _ _ Hrun) as Hok.
  destruct (configured_run _ _ _ _ _ Hrun) as (Ht & _ & _ & Hexp).
  assert (expired timeout_s = false) as Hex.
  { destruct (expired timeout_s); [|done].
    destruct (Hexp eq_refl) as [? _]. lia. }
  assert (length (_sync_start_times (actor sys)) =
          Z.to_nat (_world_size (actor sys))) as Hlen by (apply Hok; lia).
  cbn. rewrite Hi. cbn. rewrite Hp, Hws.
  rewrite broadcast_from_rank_zero_eq, Ht, Hex.
  rewrite decide_False by (unfold mismatch; tauto). cbn zeta.
  rewrite entered_active by lia.
  rewrite (bool_decide_false (call_rank c = 0)) by lia. cbn.
  rewrite bool_decide_false by lia.
  unfold list_setitem. rewrite py_index_out_of_range by lia. cbn.
  eexists. split; [done|]. unfold finish. cbn. split_and!.
  - apply list_lookup_insert_eq. by eapply lookup_lt_Some.
  - unfold cleared. cbn. rewrite bool_decide_false by lia.
    destruct (actor sys) as [cnt w rd ts to wi]. unfold set_counter. cbn.
    f_equal. lia.
  - intros j Hj. by apply list_lookup_insert_ne.
Qed.

End Arrivals.

(** ** World sizes that are not positive *)

Section WorldSizes.
Context {T : Type}.
Implicit Types (a : SynchronizationActor T) (sys : system T) (c : call T).

(** X11: the world size is not checked for being positive.  On an idle actor
    a call with world size 0 returns at once (its own data if its rank is 0,
    the stored payload otherwise).  A call with a negative world size ends
    with [IndexError] under a positive timeout, and under a timeout that is
    not positive with the timeout error, whose dictionary is empty.  In each
    case the counter is left at -1 and the world size at the caller's
    value. *)
Theorem world_size_not_validated sys (i : nat) c now :
  calls sys !! i = Some c →
  call_phase c = Pending →
  _counter (actor sys) = 0 →
  _world_size (actor sys) = 0 →
  call_world_size c ≤ 0 →
  ∃ sys',
    step sys (Arrive i now) = Some sys' ∧
    calls sys' !! i =
      Some (set_phase
              (Finished
                 (if bool_decide (call_world_size c = 0)
                  then Ok (if bool_decide (call_rank c = 0) then call_data c
                           else _reduced_data (actor sys))
                  else if expired (_timeout_s (actor sys))
                  then Raise (BroadcastCollectiveTimeoutError ∅
                                (_timeout_s (actor sys)))
                  else Raise IndexError)) c) ∧
    _counter (actor sys') = -1 ∧
    _world_size (actor sys') = call_world_size c.
Proof.
  intros Hi Hp Hc Hw Hws.
  cbn. rewrite Hi. cbn. rewrite Hp.
  rewrite broadcast_from_rank_zero_eq.
  rewrite decide_False by (unfold mismatch; tauto). cbn zeta.
  set (a' := entered _ _ _ _).
  assert (_world_size a' = call_world_size c) as Hw'.
  { unfold a'. rewrite entered_world_size. by rewrite bool_decide_true. }
  assert (_counter a' = 0) as Hc'.
  { unfold a'. rewrite entered_counter. fold a'. rewrite Hw', Hc.
    by rewrite bool_decide_false by lia. }
  assert (_sync_start_times a' = []) as Ht'.
  { unfold a'. rewrite entered_sync_start_times, bool_decide_true by done.
    unfold list_repeat. by replace (Z.to_nat (call_world_size c)) with 0%nat
      by lia. }
  assert (_world_size (cleared a') = call_world_size c) as Hwc.
  { rewrite cleared_world_size, Hc'. by rewrite bool_decide_false. }
  rewrite Hw', Hc', Ht'.
  destruct (decide (call_world_size c = 0)) as [H0|H0].
  - rewrite H0, !(bool_decide_true (0 = 0)) by done.
    eexists. split; [done|]. unfold finish. cbn. split_and!.
    + rewrite list_lookup_insert_eq.
      * unfold a'. by rewrite entered_reduced_data.
      * unfold notify_all. rewrite length_fmap. by eapply lookup_lt_Some.
    + rewrite cleared_counter. lia.
    + by rewrite Hwc.
  - rewrite (bool_decide_false (0 = _)), (bool_decide_false (_ = 0)) by done.
    unfold list_setitem. rewrite py_index_out_of_range by (cbn; lia). cbn.
    destruct (expired (_timeout_s (actor sys)));
      (eexists; split; [done|]; unfold finish; cbn; split_and!;
       [ apply list_lookup_insert_eq; by eapply lookup_lt_Some
       | rewrite cleared_counter; lia
       | done ]).
Qed.

(** X12: once the world size and the counter of the actor are negative, as
    after one call with a negative world size on an idle actor, no step
    changes the world size or brings the counter back to zero.  From then on
    every call that declares another world size, any positive one included,
    ends with the world size [ValueError]. *)
Theorem negative_world_size_is_permanent sys evs sys' :
  _world_size (actor sys) < 0 →
  _counter (actor sys) < 0 →
  run sys evs = Some sys' →
  _world_size (actor sys') = _world_size (actor sys) ∧
  _counter (actor sys') < 0 ∧
  ∀ (i : nat) c now,
    calls sys' !! i = Some c →
    call_phase c = Pending →
    call_world_size c ≠ _world_size (actor sys) →
    ∃ sys'',
      step sys' (Arrive i now) = Some sys'' ∧
      calls sys'' !! i =
        Some (set_phase
                (Finished (Raise (ValueError
                   (world_size_mismatch_message (call_world_size c)
                      (_world_size (actor sys)))))) c).
Proof.
  intros Hw Hc Hrun.
  assert (_world_size (actor sys') = _world_size (actor sys) ∧
          _counter (actor sys') < 0) as [Hw' Hc'].
  { revert Hrun.
    apply (run_invariant
             (λ s, _world_size (actor s) = _world_size (actor sys) ∧
                   _counter (actor s) < 0)); [|done].
    clear sys' evs. intros s ev s' [Hws Hcs] Hs.
    assert (∀ a, _world_size a = _world_size (actor sys) → _counter a < 0 →
              _world_size (cleared a) = _world_size (actor sys) ∧
              _counter (cleared a) < 0) as Hcl.
    { intros a Ha1 Ha2. rewrite cleared_world_size, cleared_counter.
      rewrite bool_decide_false by lia. lia. }
    assert (∀ r w d, ¬ mismatch w (actor s) →
              _world_size (entered r w d (actor s)) = _world_size (actor sys) ∧
              _counter (entered r w d (actor s)) < 0) as Hen.
    { intros r w d Hm. rewrite entered_counter, entered_world_size.
      rewrite bool_decide_false by lia. split; [done|].
      case_bool_decide; lia. }
    destruct (step_actor_cases _ _ _ Hs)
      as [->|[->|(r & w & d & Hm & [->|(now & times & Ht & ->)])]].
    - done.
    - by apply Hcl.
    - by apply Hcl; apply Hen.
    - by apply Hen. }
  split; [done|]. split; [done|].
  intros i c now Hi Hp Hne. cbn. rewrite Hi. cbn. rewrite Hp.
  rewrite broadcast_from_rank_zero_eq.
  rewrite decide_True by (unfold mismatch; lia). rewrite Hw'.
  eexists. split; [done|]. unfold finish. cbn.
  apply list_lookup_insert_eq. by eapply lookup_lt_Some.
Qed.

End WorldSizes.

(** ** A counter below zero *)

Section BelowZero.
Context {T : Type}.
Variable N : Z.
Implicit Types (a : SynchronizationActor T) (sys : system T) (c : call T).

(** X17: an idle actor whose counter is -1 (a state left behind by a call
    with world size 0, or by a call that failed on the world size followed
    by the leave of the caller it cut off) does not release a round of [N]:
    whatever the schedule, with at most [N] calls that all declare the world
    size [N], no call ever returns. *)
Theorem counter_below_zero_never_releases sys0 evs sys :
  _counter (actor sys0) = -1 →
  _world_size (actor sys0) = 0 →
  Z.of_nat (length (calls sys0)) ≤ N →
  (∀ (j : nat) c, calls sys0 !! j = Some c →
     call_phase c = Pending ∧ call_world_size c = N) →
  run sys0 evs = Some sys →
  ∀ (j : nat) c v, calls sys !! j = Some c → call_phase c ≠ Finished (Ok v).
Proof.
  intros Hc0 Hw0 Hlen0 Hcalls0 Hrun.
  set (ok := λ c : call T,
         match call_phase c with
         | Pending | Waiting | Spinning | Finished (Raise _) => true
         | _ => false
         end).
  set (J := λ s : system T,
         agreeing N s ∧
         Z.of_nat (length (calls s)) ≤ N ∧
         _counter (actor s) = count inside (calls s) - 1 ∧
         (_world_size (actor s) = 0 ∨ _world_size (actor s) = N) ∧
         ∀ (j : nat) c, calls s !! j = Some c → ok c = true).
  assert (J sys) as (_ & _ & _ & _ & Hph).
  { revert Hrun. apply (run_invariant J).
    - clear. intros s ev s' (Hag & Hlen & Hcnt & Hw & Hph) Hs.
      split; [by eapply agreeing_step|].
      split.
      { apply step_args in Hs. apply (f_equal length) in Hs.
        rewrite !length_fmap in Hs. lia. }
      assert (∀ (i : nat) c p, calls s !! i = Some c →
                ok (set_phase p c) = true →
                ∀ (j : nat) c', <[i := set_phase p c]> (calls s) !! j
                                = Some c' → ok c' = true) as Hins.
      { intros i c p Hi Hp j c'
          [(-> & <- & _)|[_ Hj]]%list_lookup_insert_Some; [done|].
        by eapply Hph. }
      assert (∀ (i : nat) c e, calls s !! i = Some c → inside c = true →
                _counter (cleared (actor s)) =
                  count inside (<[i := set_phase (Finished (Raise e)) c]>
                                  (calls s)) - 1 ∧
                (_world_size (cleared (actor s)) = 0 ∨
                 _world_size (cleared (actor s)) = N) ∧
                ∀ (j : nat) c',
                  <[i := set_phase (Finished (Raise e)) c]> (calls s) !! j
                  = Some c' → ok c' = true) as Hleave.
      { intros i c e Hi Hin.
        rewrite (count_insert _ _ _ _ _ Hi), Hin. cbn.
        rewrite cleared_counter, cleared_world_size.
        split_and!; [lia|case_bool_decide; [by left|done]|].
        by apply Hins. }
      revert Hs.
      destruct ev as [i now|i|i now|i now|i now]; cbn;
        destruct (calls s !! i) as [c|] eqn:Hi; cbn; try done;
        destruct (call_phase c) eqn:Hp; try done;
        try (apply Hph in Hi; unfold ok in Hi; by rewrite Hp in Hi);
        try (destruct (warn_eq now (actor s)) as [w ->]; by intros [= <-]);
        try (first [rewrite timed_out_eq|rewrite lock_lost_eq];
             intros [= <-]; apply Hleave; [done|];
             unfold inside; by rewrite Hp).
      assert (inside c = false) as Hic by (unfold inside; by rewrite Hp).
      pose proof (count_bounds inside
                    (<[i := set_phase Waiting c]> (calls s))) as Hb.
      rewrite (count_insert _ _ _ _ _ Hi), Hic, length_insert in Hb.
      cbn in Hb.
      rewrite (Hag _ _ Hi), broadcast_from_rank_zero_eq.
      rewrite decide_False by (unfold mismatch; lia).
      cbn zeta. set (a' := entered _ _ _ _).
      assert (_world_size a' = N) as Hw'.
      { unfold a'. rewrite entered_world_size. case_bool_decide; lia. }
      assert (_counter a' = _counter (actor s) + 1) as Hc'.
      { unfold a' in *. rewrite entered_counter, Hw'.
        rewrite bool_decide_true; lia. }
      rewrite bool_decide_false by lia.
      assert (∀ e,
                _counter (cleared a') =
                  count inside (<[i := set_phase (Finished (Raise e)) c]>
                                  (calls s)) - 1 ∧
                (_world_size (cleared a') = 0 ∨
                 _world_size (cleared a') = N) ∧
                ∀ (j : nat) c',
                  <[i := set_phase (Finished (Raise e)) c]> (calls s) !! j
                  = Some c' → ok c' = true) as Hfail.
      { intros e. rewrite (count_insert _ _ _ _ _ Hi), Hic. cbn.
        rewrite cleared_counter, cleared_world_size.
        split_and!; [lia|case_bool_decide; [by left|by right]|].
        by apply Hins. }
      destruct (expired (_timeout_s (actor s))); [intros [= <-]; apply Hfail|].
      destruct (list_setitem _ _ _) as [times|];
        [destruct (expired (_warn_interval_s (actor s)))|];
        intros [= <-]; [| |apply Hfail]; cbn;
        rewrite (count_insert _ _ _ _ _ Hi), Hic; cbn;
        (split_and!; [lia|by right|by apply Hins]).
    - split_and!; [intros j c Hj; by apply (Hcalls0 j)|done| |by left|].
      + rewrite Hc0. rewrite (count_zero inside); [done|].
        intros j c Hj. unfold inside. by destruct (Hcalls0 j c Hj) as [-> _].
      + intros j c Hj. unfold ok. by destruct (Hcalls0 j c Hj) as [-> _]. }
  intros j c v Hj Hv. pose proof (Hph j c Hj) as Hok.
  unfold ok in Hok. by rewrite Hv in Hok.
Qed.

End BelowZero.

(** ** Timers that are not positive, and the wake-up that is lost *)

Section Timers.
Context {T : Type}.
Implicit Types (a : SynchronizationActor T) (sys : system T) (c : call T).

(** The calls are those that were given. *)
Lemma run_args timeout_s warn_interval_s (args : list (Z * Z * option T))
    evs sys :
  run (start timeout_s warn_interval_s args) evs = Some sys →
  args_of <$> calls sys = args.
Proof.
  apply (run_invariant (λ s, args_of <$> calls s = args)).
  - intros s ev s' Ha Hs. by rewrite (step_args _ _ _ Hs).
  - cbn. rewrite <- list_fmap_compose. rewrite <- (list_fmap_id args) at 2.
    apply list_fmap_ext. by intros j [[r w] d] _.
Qed.

(** X18: under a timeout that is not positive no call ever waits.  In every
    state reached from a new actor the counter is at most zero, no start
    time is recorded, every call that has started has already ended, and
    none has ended with [IndexError], whatever its rank.  When moreover every
    call declares a world size of two or more, no call ever returns: each
    ends with the timeout error or with the world size [ValueError]. *)
Theorem nonpositive_timeout_never_waits timeout_s warn_interval_s
    (args : list (Z * Z * option T)) evs sys :
  expired timeout_s = true →
  run (start timeout_s warn_interval_s args) evs = Some sys →
  _counter (actor sys) ≤ 0 ∧
  Forall (λ t, t = None) (_sync_start_times (actor sys)) ∧
  (∀ c, c ∈ calls sys →
     inside c = false ∧ call_phase c ≠ Finished (Raise IndexError)) ∧
  ((∀ r w d, (r, w, d) ∈ args → 2 ≤ w) →
   ∀ c v, c ∈ calls sys → call_phase c ≠ Finished (Ok v)).
Proof.
  intros Hex Hrun.
  set (ok := λ c : call T,
         match call_phase c with
         | Pending | Finished (Ok _) | Finished (Raise (ValueError _))
         | Finished (Raise (BroadcastCollectiveTimeoutError _ _)) => true
         | _ => false
         end).
  set (big := λ s : system T,
         ∀ (j : nat) c, calls s !! j = Some c → 2 ≤ call_world_size c).
  set (J := λ s : system T,
         _timeout_s (actor s) = timeout_s ∧
         _counter (actor s) ≤ 0 ∧
         Forall (λ t, t = None) (_sync_start_times (actor s)) ∧
         (∀ (j : nat) c, calls s !! j = Some c → ok c = true) ∧
         (big s →
          (_world_size (actor s) = 0 ∨ 2 ≤ _world_size (actor s)) ∧
          ∀ (j : nat) c v, calls s !! j = Some c →
            call_phase c ≠ Finished (Ok v))).
  assert (J sys) as (_ & Hc & Ht & Hok & Hbig).
  { revert Hrun. apply (run_invariant J).
    - clear sys. intros s ev s' (Hts & Hc & Ht & Hok & Hbig) Hs.
      assert (big s' → big s) as Hbb.
      { intros Hb j c Hj.
        assert ((args_of <$> calls s') !! j = Some (args_of c)) as Hj'.
        { rewrite (step_args _ _ _ Hs), list_lookup_fmap. by rewrite Hj. }
        rewrite list_lookup_fmap in Hj'.
        destruct (calls s' !! j) as [c'|] eqn:Hc'; [|done].
        injection Hj' as _ Hw _. rewrite <- Hw. by eapply Hb. }
      revert Hs.
      destruct ev as [i now|i|i now|i now|i now]; cbn;
        destruct (calls s !! i) as [c|] eqn:Hi; cbn; try done;
        destruct (call_phase c) eqn:Hp; try done;
        try (apply Hok in Hi; unfold ok in Hi; by rewrite Hp in Hi).
      assert (∀ (r : result (option T)) (cs : list (call T)),
                (∀ (j : nat) c0, cs !! j = Some c0 → ok c0 = true) →
                ok (set_phase (Finished r) c) = true →
                ∀ (j : nat) c0,
                  <[i := set_phase (Finished r) c]> cs !! j = Some c0 →
                  ok c0 = true) as Hins.
      { intros r cs Hcs Hr j c0
          [(-> & <- & _)|[_ Hj]]%list_lookup_insert_Some; [done|].
        by eapply Hcs. }
      assert (∀ (r : result (option T)) (cs : list (call T)),
                (∀ (j : nat) c0 v, cs !! j = Some c0 →
                   call_phase c0 ≠ Finished (Ok v)) →
                (∀ v, r ≠ Ok v) →
                ∀ (j : nat) c0 v,
                  <[i := set_phase (Finished r) c]> cs !! j = Some c0 →
                  call_phase c0 ≠ Finished (Ok v)) as Hnone.
      { intros r cs Hcs Hr j c0 v
          [(-> & <- & _)|[_ Hj]]%list_lookup_insert_Some; [|by eapply Hcs].
        cbn. intros [= ->]. by eapply Hr. }
      rewrite broadcast_from_rank_zero_eq, Hts, Hex.
      case_decide as Hm.
      { intros [= <-]. unfold J, finish. cbn.
        rewrite cleared_timeout_s, cleared_counter, cleared_times,
          cleared_world_size.
        split_and!; [done|lia|done|by apply Hins|].
        intros Hb%Hbb. destruct (Hbig Hb) as [Hw Hno].
        split; [by case_bool_decide; auto|]. by apply Hnone. }
      cbn zeta. set (a' := entered _ _ _ _).
      assert (_counter a' ≤ _counter (actor s) + 1) as Hc'.
      { unfold a'. rewrite entered_counter. case_bool_decide; lia. }
      assert (Forall (λ t, t = None) (_sync_start_times a')) as Ht'.
      { unfold a'. rewrite entered_sync_start_times. case_bool_decide; [|done].
        unfold list_repeat. by apply Forall_replicate. }
      assert (big s → 2 ≤ _world_size a') as Hw'.
      { intros Hb. unfold a'. rewrite entered_world_size.
        case_bool_decide; [by eapply Hb|].
        by destruct (proj1 (Hbig Hb)). }
      case_bool_decide as Hlast; intros [= <-]; unfold J, finish; cbn;
        rewrite cleared_timeout_s, cleared_counter, cleared_times,
          cleared_world_size; unfold a' at 1; rewrite entered_timeout_s.
      + split_and!; [done|lia|done| |].
        * apply Hins; [|done]. intros j c0 Hj.
          apply notify_all_lookup in Hj as [c1 [Hj [[Hw _]|[_ ->]]]];
            [|by eapply Hok].
          apply Hok in Hj. unfold ok in Hj. by rewrite Hw in Hj.
        * intros Hb%Hbb. specialize (Hw' Hb). lia.
      + split_and!; [done|lia|done|by apply Hins|].
        intros Hb%Hbb. destruct (Hbig Hb) as [_ Hno]. specialize (Hw' Hb).
        split; [case_bool_decide; auto|]. by apply Hnone.
    - unfold J. cbn. split_and!; [done|done|done| |].
      + intros j c. rewrite list_lookup_fmap.
        destruct (args !! j) as [[[r w] d]|]; cbn; [|done]. by intros [= <-].
      + intros _. split; [by left|]. intros j c v.
        rewrite list_lookup_fmap.
        destruct (args !! j) as [[[r w] d]|]; cbn; [|done]. by intros [= <-]. }
  split_and!; [done|done| |].
  - intros c [j Hj]%list_elem_of_lookup_1. apply Hok in Hj.
    unfold ok in Hj. unfold inside.
    destruct (call_phase c) as [| | | |[v|[]]]; try done.
  - intros Hargs c v [j Hj]%list_elem_of_lookup_1.
    assert (big sys) as Hb.
    { intros j' c' Hj'. pose proof (run_args _ _ _ _ _ Hrun) as Ha.
      apply (Hargs (call_rank c') (call_world_size c') (call_data c')).
      apply list_elem_of_lookup_2 with j'.
      by rewrite <- Ha, list_lookup_fmap, Hj'. }
    by eapply (proj2 (Hbig Hb)).
Qed.

(** X19: under a warning interval that is not positive no call is ever
    woken.  In every state reached from a new actor no call is waiting on
    the condition or notified: a call that has entered the wait spins with
    the lock held.  No wake-up can run, and no call can leave before the
    lock is taken back: a call that spins ends by its timeout alone. *)
Theorem nonpositive_warn_interval_never_wakes timeout_s warn_interval_s
    (args : list (Z * Z * option T)) evs sys :
  expired warn_interval_s = true →
  run (start timeout_s warn_interval_s args) evs = Some sys →
  (∀ c, c ∈ calls sys → call_phase c ≠ Waiting ∧ call_phase c ≠ Notified) ∧
  (∀ i : nat, step sys (Wake i) = None) ∧
  (∀ (i : nat) now, step sys (TimeoutRace i now) = None).
Proof.
  intros Hex Hrun.
  set (ok := λ c : call T,
         match call_phase c with Waiting | Notified => false | _ => true end).
  assert (_warn_interval_s (actor sys) = warn_interval_s ∧
          ∀ (j : nat) c, calls sys !! j = Some c → ok c = true) as [_ Hok].
  { revert Hrun. apply (run_invariant (λ s,
      _warn_interval_s (actor s) = warn_interval_s ∧
      ∀ (j : nat) c, calls s !! j = Some c → ok c = true)).
    - clear sys. intros s ev s' [Hw Hok] Hs. split.
      { destruct (step_actor_cases _ _ _ Hs)
          as [->|[->|(r & w & d & _ & [->|(now & times & _ & ->)])]]; cbn;
          by rewrite ?cleared_warn_interval_s, ?entered_warn_interval_s. }
      revert Hs.
      destruct ev as [i now|i|i now|i now|i now]; cbn;
        destruct (calls s !! i) as [c|] eqn:Hi; cbn; try done;
        destruct (call_phase c) eqn:Hp; try done;
        try (apply Hok in Hi; unfold ok in Hi; by rewrite Hp in Hi);
        try (destruct (warn_eq now (actor s)) as [w ->]; by intros [= <-]);
        try (rewrite timed_out_eq; intros [= <-]; cbn;
             intros j c0 [(-> & <- & _)|[_ Hj]]%list_lookup_insert_Some;
             [done|by eapply Hok]).
      rewrite broadcast_from_rank_zero_eq, Hw, Hex.
      case_decide; [|cbn zeta; case_bool_decide;
                     [|destruct (expired (_timeout_s (actor s)));
                       [|destruct (list_setitem _ _ _)]]];
        cbn; intros [= <-]; cbn;
        intros j c0 [(-> & <- & _)|[_ Hj]]%list_lookup_insert_Some;
        try done; try (by eapply Hok).
      apply notify_all_lookup in Hj as [c1 [Hj [[Hwt _]|[_ ->]]]];
        [|by eapply Hok].
      apply Hok in Hj. unfold ok in Hj. by rewrite Hwt in Hj.
    - split; [done|]. intros j c. cbn. rewrite list_lookup_fmap.
      destruct (args !! j) as [[[r w] d]|]; cbn; [|done]. by intros [= <-]. }
  split_and!.
  - intros c [j Hj]%list_elem_of_lookup_1. apply Hok in Hj.
    unfold ok in Hj. by destruct (call_phase c).
  - intros i. cbn. destruct (calls sys !! i) as [c|] eqn:Hi; cbn; [|done].
    apply Hok in Hi. unfold ok in Hi. by destruct (call_phase c).
  - intros i now. cbn.
    destruct (calls sys !! i) as [c|] eqn:Hi; cbn; [|done].
    apply Hok in Hi. unfold ok in Hi. by destruct (call_phase c).
Qed.

(** X20: the wake-up that is lost.  When the warning interval of a notified
    call passes before the call has taken the lock back, the call logs a
    warning and is back in the wait; the actor is as it was, and so are the
    other calls.  The notification is gone: the call can not wake, and for as
    long as no further call arrives it stays in the wait until it times
    out. *)
Theorem warning_on_released_call_loses_wakeup sys (i : nat) c now :
  calls sys !! i = Some c →
  call_phase c = Notified →
  ∃ w sys',
    step sys (Warn i now) = Some sys' ∧
    sys' = mkSystem (actor sys) (<[i := set_phase Waiting c]> (calls sys))
             (warnings sys ++ [w]) ∧
    step sys' (Wake i) = None ∧
    ∀ evs sys'',
      Forall (λ ev, is_arrival ev = false) evs →
      run sys' evs = Some sys'' →
      ∃ c', calls sys'' !! i = Some c' ∧
            (call_phase c' = Waiting ∨ timed_out c' = true).
Proof.
  intros Hi Hp.
  assert (i < length (calls sys))%nat as Hil by (by eapply lookup_lt_Some).
  destruct (warn_eq now (actor sys)) as [w Hw].
  exists w. eexists. split.
  { cbn. rewrite Hi. cbn. by rewrite Hp, Hw. }
  split; [done|]. split.
  { cbn. by rewrite list_lookup_insert_eq. }
  set (stuck := λ s : system T,
         ∃ c', calls s !! i = Some c' ∧
               (call_phase c' = Waiting ∨ timed_out c' = true)).
  assert (∀ s ev s', is_arrival ev = false → stuck s →
            step s ev = Some s' → stuck s') as Hstep.
  { intros s ev s' Hev (c' & Hc' & Hph).
    assert (∀ (j : nat) p c0, j ≠ i →
              stuck (mkSystem (actor s') (<[j := set_phase p c0]> (calls s))
                       (warnings s'))) as Hother.
    { intros j p c0 Hji. exists c'. cbn.
      by rewrite list_lookup_insert_ne. }
    destruct ev as [j t|j|j t|j t|j t]; [done|..]; cbn;
      destruct (calls s !! j) as [c0|] eqn:Hj; cbn; try done;
      destruct (call_phase c0) eqn:Hp0; try done;
      try (destruct (warn_eq t (actor s)) as [w0 ->]);
      try rewrite notified_eq; try rewrite timed_out_eq;
      try rewrite lock_lost_eq; intros [= <-];
      try (by exists c');
      (destruct (decide (j = i)) as [->|Hji]; [|by apply Hother]);
      simplify_eq; unfold finish; cbn;
      try (destruct Hph as [?|Hto]; [congruence|];
           unfold timed_out in Hto; by rewrite Hp0 in Hto);
      (eexists; split;
       [apply list_lookup_insert_eq; by eapply lookup_lt_Some|]); cbn; auto. }
  intros evs. induction evs as [|ev evs IH] using rev_ind; intros sys'' Hevs.
  - intros [= <-]. eexists. split; [by apply list_lookup_insert_eq|].
    by left.
  - apply Forall_app in Hevs as [Hevs [Hev _]%Forall_cons].
    rewrite run_app.
    destruct (run _ evs) as [s1|] eqn:Hr1; [|done]. cbn.
    destruct (step s1 ev) as [s2|] eqn:Hs; [|done]. intros [= <-].
    eapply Hstep; [done| |done]. by apply IH.
Qed.

End Timers.

(** ** Instances *)

(** A call of rank 9 completes a round of two. *)
Lemma completing_arrival_ignores_rank_witness :
  ∃ sys' : system nat,
    step (mkSystem (mkActor 1 2 (Some 7%nat) [Some 1%float; None] 5 1)
            [mkCall 0 2 (Some 7%nat) Waiting; mkCall 9 2 None Pending] [])
         (Arrive 1 2) = Some sys' ∧
    calls sys' =
      [mkCall 0 2 (Some 7%nat) Notified;
       mkCall 9 2 None (Finished (Ok (Some 7%nat)))] ∧
    _sync_start_times (actor sys') = [Some 1%float; None].
Proof.
  destruct (completing_arrival_ignores_rank
              (mkSystem (mkActor 1 2 (Some 7%nat) [Some 1%float; None] 5 1)
                 [mkCall 0 2 (Some 7%nat) Waiting; mkCall 9 2 None Pending]
                 [])
              1%nat (mkCall 9 2 None Pending) 2)
    as (sys' & Hs & _ & _ & _ & Ht); [done..|].
  exists sys'. split; [done|]. split; [|done].
  revert Hs. vm_compute. by intros [= <-].
Defined.

(** A call of rank -1 joins a round of three opened by rank 0. *)
Lemma waiting_arrival_records_start_witness :
  ∃ sys' : system nat,
    step (mkSystem (mkActor 1 3 None [Some 1%float; None; None] 5 1)
            [mkCall 0 3 None Waiting; mkCall (-1) 3 None Pending] [])
         (Arrive 1 2) = Some sys' ∧
    calls sys' !! 1%nat = Some (mkCall (-1) 3 None Waiting) ∧
    _sync_start_times (actor sys') !! 2%nat = Some (Some 2%float) ∧
    _counter (actor sys') = 2.
Proof.
  destruct (waiting_arrival_records_start 5 1
              [(0, 3, None); (-1, 3, None)] [Arrive 0 1]
              (mkSystem (mkActor 1 3 None [Some 1%float; None; None] 5 1)
                 [mkCall 0 3 (None : option nat) Waiting;
                  mkCall (-1) 3 None Pending] [])
              1%nat (mkCall (-1) 3 None Pending) 2)
    as (sys' & Hs & Hc & Ht & _ & Hcnt & _); [done..|cbn; lia|].
  by exists sys'.
Defined.

(** The first call of a round of three, with rank 1. *)
Lemma first_arrival_opens_round_witness :
  ∃ sys' : system nat,
    step (start 5 1 [(1, 3, Some 4%nat)]) (Arrive 0 2) = Some sys' ∧
    actor sys' = mkActor 1 3 None [None; Some 2%float; None] 5 1.
Proof.
  destruct (first_arrival_opens_round (start 5 1 [(1, 3, Some 4%nat)])
              0%nat (mkCall 1 3 (Some 4%nat) Pending) 2)
    as (sys' & Hs & _); [done..|cbn; lia|cbn; lia|].
  exists sys'. split; [done|]. revert Hs. vm_compute. by intros [= <-].
Defined.

(** A world of two: ranks 0 and 1 have arrived, rank 1 has returned "old",
    and before rank 0 wakes, rank 0 of the next round calls with "new". *)
Lemma late_rank_zero_overwrites_payload_witness :
  ∃ sys sys1 sys2 : system string,
    run (start 5 1 [(0, 2, Some "old"); (1, 2, None); (0, 2, Some "new")])
        [Arrive 0 1; Arrive 1 2] = Some sys ∧
    calls sys !! 1%nat = Some (mkCall 1 2 None (Finished (Ok (Some "old")))) ∧
    step sys (Arrive 2 3) = Some sys1 ∧
    step sys1 (Wake 0) = Some sys2 ∧
    calls sys2 !! 0%nat =
      Some (mkCall 0 2 (Some "old") (Finished (Ok (Some "new")))).
Proof.
  eexists. 
  destruct (late_rank_zero_overwrites_payload
              (mkSystem (mkActor 1 2 (Some "old") [Some 1%float; None] 5 1)
                 [mkCall 0 2 (Some "old") Notified;
                  mkCall 1 2 None (Finished (Ok (Some "old")));
                  mkCall 0 2 (Some "new") Pending] [])
              2%nat 0%nat (mkCall 0 2 (Some "new") Pending)
              (mkCall 0 2 (Some "old") Notified) 3)
    as (sys1 & sys2 & Hs1 & _ & Hs2 & Hc2); [done..|].
  exists sys1, sys2. split; [by vm_compute|]. by split_and!.
Defined.

(** A call of rank -4 in a round of three with one caller waiting. *)
Lemma index_error_leaves_round_intact_witness :
  ∃ sys' : system nat,
    step (mkSystem (mkActor 1 3 None [None; Some 1%float; None] 5 1)
            [mkCall 1 3 None Waiting; mkCall (-4) 3 None Pending] [])
         (Arrive 1 2) = Some sys' ∧
    calls sys' !! 1%nat =
      Some (mkCall (-4) 3 None (Finished (Raise IndexError))) ∧
    actor sys' = mkActor 1 3 None [None; Some 1%float; None] 5 1.
Proof.
  destruct (index_error_leaves_round_intact 5 1
              [(1, 3, None); (-4, 3, None)] [Arrive 0 1]
              (mkSystem (mkActor 1 3 None [None; Some 1%float; None] 5 1)
                 [mkCall 1 3 (None : option nat) Waiting;
                  mkCall (-4) 3 None Pending] [])
              1%nat (mkCall (-4) 3 None Pending) 2)
    as (sys' & Hs & Hc & Ha & _); [done..|cbn; lia|].
  by exists sys'.
Defined.

(** A call with world size -2 on a new actor. *)
Lemma world_size_not_validated_witness :
  ∃ sys' : system nat,
    step (start 5 1 [(0, -2, Some 4%nat)]) (Arrive 0 1) = Some sys' ∧
    calls sys' !! 0%nat =
      Some (mkCall 0 (-2) (Some 4%nat) (Finished (Raise IndexError))) ∧
    _counter (actor sys') = -1 ∧
    _world_size (actor sys') = -2.
Proof.
  destruct (world_size_not_validated (start 5 1 [(0, -2, Some 4%nat)])
              0%nat (mkCall 0 (-2) (Some 4%nat) Pending) 1)
    as (sys' & Hs & Hc & Hcnt & Hw); [done..|].
  by exists sys'.
Defined.

(** After that call, a round of two cannot start. *)
Lemma negative_world_size_is_permanent_witness :
  ∃ sys' sys'' : system nat,
    run (mkSystem (mkActor (-1) (-2) (Some 4%nat) [] 5 1)
           [mkCall 0 (-2) (Some 4%nat) (Finished (Raise IndexError));
            mkCall 0 2 (Some 5%nat) Pending; mkCall 1 2 None Pending] [])
        [Arrive 1 2] = Some sys' ∧
    _world_size (actor sys') = -2 ∧
    step sys' (Arrive 2 3) = Some sys'' ∧
    calls sys'' !! 2%nat =
      Some (mkCall 1 2 None
              (Finished (Raise (ValueError
                 (world_size_mismatch_message 2 (-2)))))).
Proof.
  eexists.
  destruct (negative_world_size_is_permanent
              (mkSystem (mkActor (-1) (-2) (Some 4%nat) [] 5 1)
                 [mkCall 0 (-2) (Some 4%nat) (Finished (Raise IndexError));
                  mkCall 0 2 (Some 5%nat) Pending; mkCall 1 2 None Pending]
                 [])
              [Arrive 1 2] _ eq_refl eq_refl eq_refl)
    as (Hw & _ & Hcalls).
  destruct (Hcalls 2%nat (mkCall 1 2 None Pending) 3%float eq_refl eq_refl)
    as (sys'' & Hs & Hc); [done|].
  exists sys''. split; [done|]. by split_and!.
Defined.

(** After a call with world size 0, the two callers of a world of two both
    arrive, and both wait. *)
Lemma counter_below_zero_never_releases_witness :
  ∃ sys : system nat,
    run (mkSystem (mkActor (-1) 0 None [] 5 1)
           [mkCall 0 2 (Some 4%nat) Pending; mkCall 1 2 None Pending] [])
        [Arrive 0 1; Arrive 1 2] = Some sys ∧
    call_phase <$> calls sys = [Waiting; Waiting] ∧
    ∀ (j : nat) c v, calls sys !! j = Some c → call_phase c ≠ Finished (Ok v).
Proof.
  eexists. split; [by vm_compute|]. split; [done|].
  apply (counter_below_zero_never_releases 2
           (mkSystem (mkActor (-1) 0 None [] 5 1)
              [mkCall 0 2 (Some 4%nat) Pending; mkCall 1 2 None Pending] [])
           [Arrive 0 1; Arrive 1 2]); [done|done|cbn; lia| |by vm_compute].
  intros [|[|j]] c; cbn; [by intros [= <-]..|done].
Defined.

(** A timeout of zero and the two callers of a world of two. *)
Lemma nonpositive_timeout_never_waits_witness :
  ∃ sys : system nat,
    run (start 0 1 [(0, 2, Some 7%nat); (1, 2, None)])
      [Arrive 0 1; Arrive 1 2] = Some sys ∧
    _counter (actor sys) ≤ 0 ∧
    Forall (λ t, t = None) (_sync_start_times (actor sys)) ∧
    (∀ c, c ∈ calls sys →
       inside c = false ∧ call_phase c ≠ Finished (Raise IndexError)) ∧
    ∀ c v, c ∈ calls sys → call_phase c ≠ Finished (Ok v).
Proof.
  eexists. split; [by vm_compute|].
  edestruct (nonpositive_timeout_never_waits 0 1
               [(0, 2, Some 7%nat); (1, 2, None)] [Arrive 0 1; Arrive 1 2])
    as (Hc & Ht & Hph & Hno); [by vm_compute|by vm_compute|].
  split_and!; [done..|]. apply Hno. intros r w d Hin.
  repeat (apply elem_of_cons in Hin as [[= -> -> ->]|Hin]); [lia|lia|].
  by apply elem_of_nil in Hin.
Defined.

(** A warning interval of zero: the first caller of a world of two spins. *)
Lemma nonpositive_warn_interval_never_wakes_witness :
  ∃ sys : system nat,
    run (start 5 0 [(0, 2, Some 7%nat); (1, 2, None)])
      [Arrive 0 1; Warn 0 1] = Some sys ∧
    call_phase <$> calls sys = [Spinning; Pending] ∧
    (∀ i : nat, step sys (Wake i) = None) ∧
    (∀ (i : nat) now, step sys (TimeoutRace i now) = None).
Proof.
  eexists. split; [by vm_compute|]. split; [done|].
  edestruct (nonpositive_warn_interval_never_wakes 5 0
               [(0, 2, Some 7%nat); (1, 2, None)] [Arrive 0 1; Warn 0 1])
    as (_ & Hwake & Hrace); [by vm_compute|by vm_compute|].
  by split.
Defined.

(** A world of two after its release: rank 0 has returned, rank 1 is
    notified, and its warning interval passes first. *)
Lemma warning_on_released_call_loses_wakeup_witness :
  ∃ sys' sys'' : system string,
    step (mkSystem (mkActor 1 2 (Some "ckpt-42") [None; Some 1%float] 5 1)
            [mkCall 1 2 None Notified;
             mkCall 0 2 (Some "ckpt-42") (Finished (Ok (Some "ckpt-42")))] [])
         (Warn 0 3) = Some sys' ∧
    call_phase <$> calls sys' =
      [Waiting; Finished (Ok (Some "ckpt-42"))] ∧
    step sys' (Wake 0) = None ∧
    run sys' [Warn 0 4; Warn 0 5; Timeout 0 6] = Some sys'' ∧
    ∃ c', calls sys'' !! 0%nat = Some c' ∧
          (call_phase c' = Waiting ∨ timed_out c' = true).
Proof.
  destruct (warning_on_released_call_loses_wakeup
              (mkSystem (mkActor 1 2 (Some "ckpt-42") [None; Some 1%float] 5 1)
                 [mkCall 1 2 None Notified;
                  mkCall 0 2 (Some "ckpt-42")
                    (Finished (Ok (Some "ckpt-42")))] [])
              0%nat (mkCall 1 2 None Notified) 3 eq_refl eq_refl)
    as (w & sys' & Hs & -> & Hwake & Hstuck).
  eexists _, _. split; [exact Hs|]. split; [done|]. split; [exact Hwake|].
  split; [by vm_compute|].
  apply (Hstuck [Warn 0 4; Warn 0 5; Timeout 0 6]);
    [by repeat constructor|by vm_compute].
Defined.

(** * Properties of LearnerGroupConfig *)

Module LearnerGroupConfigFacts.
Import LearnerGroupConfig.

Section Facts.
Context {LearnerGroupClass LearnerClass ModuleSpec LearnerHyperparameters
         TorchCompileConfig LearnerGroupT : Type}.
Variable LearnerGroup : LearnerGroupClass.
Variable default_hyperparameters : LearnerHyperparameters.
Variable instantiate :
  LearnerGroupClass →
  @LearnerSpec LearnerClass ModuleSpec LearnerHyperparameters
    TorchCompileConfig →
  LearnerGroupT.

Implicit Types
  (self : @config LearnerGroupClass LearnerClass ModuleSpec
            LearnerHyperparameters TorchCompileConfig).

Lemma later_provided {A} (x y : arg A) (old : A) :
  provided y (provided x old) = provided (later x y) old.
Proof. by destruct x, y. Qed.

(** X13: calling a setter twice is calling it once with, for each
    parameter, the later of the two arguments that was provided; a call with
    no argument provided changes nothing. *)
Theorem setter_called_twice_keeps_later_arguments self :
  (∀ e1 t1 e2 t2,
     framework e2 t2 (framework e1 t1 self) =
     framework (later e1 e2) (later t1 t2) self) ∧
  (∀ m1 m2, module m2 (module m1 self) = module (later m1 m2) self) ∧
  (∀ w1 g1 c1 l1 w2 g2 c2 l2,
     resources w2 g2 c2 l2 (resources w1 g1 c1 l1 self) =
     resources (later w1 w2) (later g1 g2) (later c1 c2) (later l1 l2) self) ∧
  (∀ c1 h1 c2 h2,
     learner c2 h2 (learner c1 h1 self) =
     learner (later c1 c2) (later h1 h2) self) ∧
  framework NotProvided NotProvided self = self ∧
  module NotProvided self = self ∧
  resources NotProvided NotProvided NotProvided NotProvided self = self ∧
  learner NotProvided NotProvided self = self.
Proof.
  split_and!; intros;
    unfold framework, module, resources, learner; cbn;
    rewrite ?later_provided; by destruct self.
Qed.

(** X14: calls of different setters commute: the order in which
    [framework], [module], [resources] and [learner] are chained does not
    change the configuration. *)
Theorem setters_of_different_methods_commute self :
  (∀ e t m, framework e t (module m self) = module m (framework e t self)) ∧
  (∀ e t w g c l,
     framework e t (resources w g c l self) =
     resources w g c l (framework e t self)) ∧
  (∀ e t c h,
     framework e t (learner c h self) = learner c h (framework e t self)) ∧
  (∀ m w g c l,
     module m (resources w g c l self) = resources w g c l (module m self)) ∧
  (∀ m c h, module m (learner c h self) = learner c h (module m self)) ∧
  (∀ w g c l c' h,
     resources w g c l (learner c' h self) =
     learner c' h (resources w g c l self)).
Proof. by split_and!. Qed.

(** X15: once a module spec and a learner class have been given, [build]
    hands the learner group class a [LearnerSpec] with exactly the stored
    values.  On a new configuration these are the defaults of [__init__]:
    the class given to it or else [LearnerGroup], one worker, no GPU, one
    CPU, GPU index 0, eager tracing on, no compile configuration and the
    default hyperparameters. *)
Theorem build_passes_stored_values :
  (∀ self m c h,
     build instantiate (learner (Provided (Some c)) h
                          (module (Provided (Some m)) self)) =
     Ok (instantiate (learner_group_class self)
           (mkLearnerSpec (Some c) (Some m)
              (mkScaling (num_learner_workers self)
                 (num_gpus_per_learner_worker self)
                 (num_cpus_per_learner_worker self) (local_gpu_idx self))
              (provided h (learner_hyperparameters self))
              (mkFramework (eager_tracing self) (torch_compile_cfg self))))) ∧
  (∀ cls m c,
     build instantiate
       (learner (Provided (Some c)) NotProvided
          (module (Provided (Some m))
             (__init__ LearnerGroup default_hyperparameters cls))) =
     Ok (instantiate (default LearnerGroup cls)
           (mkLearnerSpec (Some c) (Some m)
              (mkScaling (Some 1) (Some 0) (Some (Int 1)) (Some 0))
              (Some default_hyperparameters)
              (mkFramework (Some true) None)))).
Proof. by split. Qed.

(** X16: a configuration passes [validate] exactly when both the module spec
    and the learner class are set and not [None], and [build] raises
    whatever [validate] raises, before the learner group class is called.  A
    missing module spec is reported first, whatever the learner class; a new
    configuration, and one whose module spec was set to [None] again, cannot
    be built. *)
Theorem build_needs_module_and_learner self :
  (validate self = Ok tt ↔
   is_Some (module_spec self) ∧ is_Some (learner_class self)) ∧
  (∀ e, validate self = Raise e → build instantiate self = Raise e) ∧
  (module_spec self = None →
   build instantiate self =
   Raise (ValueError
     "Cannot initialize an Learner without the module specs. Please provide the specs via .module(module_spec).")) ∧
  (is_Some (module_spec self) → learner_class self = None →
   build instantiate self =
   Raise (ValueError
     "Cannot initialize an Learner without an Learner class. Please provide the Learner class with .learner(learner_class=MyLearnerClass).")) ∧
  (∀ cls, ¬ ∃ g,
     build instantiate
       (__init__ LearnerGroup default_hyperparameters cls) = Ok g) ∧
  (∀ c h, ¬ ∃ g,
     build instantiate (learner c h (module (Provided None) self)) = Ok g).
Proof.
  split_and!.
  - unfold validate.
    destruct (module_spec self), (learner_class self); cbn; split;
      first [ done
            | intros _; by split; eexists
            | intros [[? ?] [? ?]]; discriminate ].
  - intros e He. unfold build. by rewrite He.
  - intros Hm. unfold build, validate. by rewrite Hm.
  - intros [m Hm] Hl. unfold build, validate. by rewrite Hm, Hl.
  - by intros cls [g ?].
  - by intros c h [g ?].
Qed.

End Facts.

End LearnerGroupConfigFacts.
